(** * FibeR-CNN: the fibre-width head ([fibercnn/modeling/fiberwidth_head.py])

    A shallow embedding of the fibre-width regression head, of its loss and of
    its inference post-processing, together with the properties its
    specification states about them.

    Conventions of the embedding.
    - Tensor elements are an abstract scalar type with the operations the
      program uses (class [Scalar]); arithmetic laws are never assumed
      silently: a theorem that needs one takes it as a named hypothesis.
    - A tensor is its shape and its row-major data; tensors are values (the
      program performs no in-place tensor operation).
    - [Instances] containers are objects of a heap addressed by location,
      because [fiberwidth_inference] mutates them through [setattr].
    - Python exceptions are the [Err] results of type [Result]; code that
      touches the module-level counter, the event storage or the heap lives
      in the monad [M]. *)

From Stdlib Require Import ZArith Lia.
From stdpp Require Import base list strings functions.

(** ** Exceptions and results *)

Inductive exn : Type :=
  | AssertionError
  | AttributeError
  | IndexError
  | KeyError
  | RuntimeError
  | ValueError.

Inductive Result (A : Type) : Type :=
  | Ok (a : A)
  | Err (e : exn).
Arguments Ok {A} a.
Arguments Err {A} e.

Definition rbind {A B} (r : Result A) (k : A → Result B) : Result B :=
  match r with
  | Ok a => k a
  | Err e => Err e
  end.

#[export] Instance Result_ret : MRet Result := λ A, @Ok A.
#[export] Instance Result_bind : MBind Result := λ A B k r, rbind r k.
#[export] Instance Result_fmap : FMap Result :=
  λ A B f r, rbind r (λ a, Ok (f a)).

(** ** Scalars *)

(** The element type of tensors with the operations used by the program:
    [sdivn x n] divides by a count (the mean of [mse_loss]), [sleb] is the
    comparison behind [F.relu]. *)
Class Scalar (R : Type) : Type := {
  s0 : R;
  sadd : R → R → R;
  ssub : R → R → R;
  smul : R → R → R;
  sdivn : R → nat → R;
  sleb : R → R → bool;
}.

(** Integers as scalars, used to run the definitions on concrete inputs. *)
#[export] Instance Z_Scalar : Scalar Z := {|
  s0 := 0%Z;
  sadd := Z.add;
  ssub := Z.sub;
  smul := Z.mul;
  sdivn := λ x n, (x / Z.of_nat n)%Z;
  sleb := Z.leb;
|}.

(** ** Tensors *)

Section Tensors.
Context {R : Type} `{!Scalar R}.

Record Tensor : Type := mkTensor {
  shape : list nat;
  data : list R;
}.

Definition prod (s : list nat) : nat := foldr Nat.mul 1 s.

Definition numel (t : Tensor) : nat := prod (shape t).

(** [t.dim()] *)
Definition dim (t : Tensor) : nat := length (shape t).

(** A tensor is well formed when it holds as many elements as its shape
    says. *)
Definition wf (t : Tensor) : Prop := length (data t) = numel t.

(** [t.view(-1)] *)
Definition view_flat (t : Tensor) : Tensor := mkTensor [numel t] (data t).

(** [t.view(s)] for a full shape [s]: the element count must be kept. *)
Definition view (t : Tensor) (s : list nat) : Result Tensor :=
  if decide (prod s = numel t) then Ok (mkTensor s (data t))
  else Err RuntimeError.

Definition ssum (xs : list R) : R := foldr sadd s0 xs.

(** [t.sum()]: a 0-dimensional tensor. *)
Definition tsum (t : Tensor) : Tensor := mkTensor [] [ssum (data t)].

(** [t * c] for a Python number [c]. *)
Definition tmul (t : Tensor) (c : R) : Tensor :=
  mkTensor (shape t) (map (λ x, smul x c) (data t)).

(** [F.relu]: [x] is kept unless it compares below zero. *)
Definition relu (x : R) : R := if sleb x s0 then s0 else x.

Definition F_relu (t : Tensor) : Tensor :=
  mkTensor (shape t) (map relu (data t)).

(** [torch.flatten(t, start_dim=1)] *)
Definition flatten (t : Tensor) : Result Tensor :=
  match shape t with
  | [] => Err IndexError
  | n :: rest => Ok (mkTensor [n; prod rest] (data t))
  end.

(** [cat(ts, dim=0)] of detectron2: a single tensor is returned as it is,
    otherwise [torch.cat] needs at least one tensor, of dimension one or
    more and of equal trailing shapes. *)
Definition size0 (t : Tensor) : nat := hd 0 (shape t).

Definition cat (ts : list Tensor) : Result Tensor :=
  match ts with
  | [] => Err RuntimeError
  | [t] => Ok t
  | t :: _ =>
      match shape t with
      | [] => Err RuntimeError
      | _ :: tl =>
          if forallb (λ u, match shape u with
                           | [] => false
                           | _ :: tl' => bool_decide (tl' = tl)
                           end) ts
          then Ok (mkTensor (sum_list (size0 <$> ts) :: tl)
                            (concat (data <$> ts)))
          else Err RuntimeError
      end
  end.

Definition sq_err (p t : R) : R := smul (ssub p t) (ssub p t).

Definition mean (xs : list R) : R := sdivn (ssum xs) (length xs).

(** [F.mse_loss(input, target)] with the default mean reduction, on
    tensors of one shape.  (With different shapes torch broadcasts;
    [fiberwidth_loss] only calls it after [view(N, K)], on equal
    shapes.) *)
Definition mse_loss (input target : Tensor) : Result Tensor :=
  if decide (shape input = shape target)
  then Ok (mkTensor [] [mean (zip_with sq_err (data input) (data target))])
  else Err RuntimeError.

(** [t.split(sizes, dim=0)]: the tensor has at least one dimension and
    the sizes must sum to its size along dimension 0; chunk [i] holds
    [sizes[i]] consecutive rows. *)
Fixpoint split_data (row : nat) (sizes : list nat) (d : list R)
  : list (list R) :=
  match sizes with
  | [] => []
  | n :: ns => take (n * row) d :: split_data row ns (drop (n * row) d)
  end.

Definition split (t : Tensor) (sizes : list nat) : Result (list Tensor) :=
  match shape t with
  | [] => Err RuntimeError
  | n :: tl =>
      if decide (sum_list sizes = n)
      then Ok (zip_with (λ k d, mkTensor (k :: tl) d) sizes
                        (split_data (prod tl) sizes (data t)))
      else Err RuntimeError
  end.

(** *** Layers *)

(** [nn.Linear(in_features, out_features)]: [weight o i] and [bias o]. *)
Record Linear : Type := mkLinear {
  in_features : nat;
  out_features : nat;
  weight : nat → nat → R;
  bias : nat → R;
}.

Definition dot (n : nat) (w : nat → R) (x : list R) : R :=
  ssum ((λ i, smul (nth i x s0) (w i)) <$> seq 0 n).

(** Applying a linear layer: the last dimension must be [in_features];
    every row of [in_features] elements becomes one of [out_features]. *)
Definition Linear_forward (l : Linear) (x : Tensor) : Result Tensor :=
  match reverse (shape x) with
  | [] => Err RuntimeError
  | k :: lead_rev =>
      if decide (k = in_features l)
      then
        let rows := prod lead_rev in
        Ok (mkTensor (reverse lead_rev ++ [out_features l])
              (concat ((λ r,
                 (λ o, sadd (dot k (weight l o) (drop (r * k) (data x)))
                            (bias l o)) <$> seq 0 (out_features l))
                 <$> seq 0 rows)))
      else Err RuntimeError
  end.

(** A normalisation module of the host library, given by its action on
    the data of a tensor of a given shape: it keeps the shape. *)
Record NormModule : Type := mkNorm {
  norm_data : list nat → list R → list R;
}.

Definition norm_forward (nm : NormModule) (x : Tensor) : Tensor :=
  mkTensor (shape x) (norm_data nm (shape x) (data x)).

(** detectron2's [Conv2d] wrapper as the head builds it: kernel 3,
    padding 1, stride 1, an optional bias, an optional norm, then relu.
    The input is a batch [N; C; H; W], or one unbatched map [C; H; W],
    with [C = in_channels] and at least one row and one column; the layer
    has at least one output channel; the output keeps [N], [H] and [W]. *)
Record Conv2d : Type := mkConv2d {
  in_channels : nat;
  out_channels : nat;
  conv_weight : nat → nat → nat → nat → R;
  conv_bias : option (nat → R);
  norm : option NormModule;
}.

(** Element [(n, c, a - 1, b - 1)] of the input, zero in the padding. *)
Definition padded (C H W : nat) (x : list R) (n c a b : nat) : R :=
  if bool_decide (1 ≤ a ≤ H ∧ 1 ≤ b ≤ W)
  then nth (((n * C + c) * H + (a - 1)) * W + (b - 1)) x s0
  else s0.

Definition conv_at (l : Conv2d) (C H W : nat) (x : list R) (n o i j : nat)
  : R :=
  let acc :=
    ssum ((λ c,
      ssum ((λ di,
        ssum ((λ dj, smul (conv_weight l o c di dj)
                          (padded C H W x n c (i + di) (j + dj)))
              <$> seq 0 3)) <$> seq 0 3)) <$> seq 0 C) in
  match conv_bias l with
  | Some b => sadd acc (b o)
  | None => acc
  end.

Definition Conv2d_forward (l : Conv2d) (x : Tensor) : Result Tensor :=
  let post (y : Tensor) : Tensor :=
    F_relu (match norm l with
            | Some nm => norm_forward nm y
            | None => y
            end) in
  match shape x with
  | [N; C; H; W] =>
      if decide (C = in_channels l ∧ 1 ≤ H ∧ 1 ≤ W ∧ 1 ≤ out_channels l)
      then
        Ok (post (mkTensor [N; out_channels l; H; W]
          (n ← seq 0 N; o ← seq 0 (out_channels l);
           i ← seq 0 H; j ← seq 0 W;
           [conv_at l C H W (data x) n o i j] : list R)))
      else Err RuntimeError
  | [C; H; W] =>
      if decide (C = in_channels l ∧ 1 ≤ H ∧ 1 ≤ W ∧ 1 ≤ out_channels l)
      then
        Ok (post (mkTensor [out_channels l; H; W]
          (o ← seq 0 (out_channels l);
           i ← seq 0 H; j ← seq 0 W;
           [conv_at l C H W (data x) 0 o i j] : list R)))
      else Err RuntimeError
  | _ => Err RuntimeError
  end.

End Tensors.

Arguments Tensor R : clear implicits.
Arguments Linear R : clear implicits.
Arguments Conv2d R : clear implicits.
Arguments NormModule R : clear implicits.

(** ** The head: [FiberWidthHeadFC] *)

(** [cfg.MODEL.ROI_FIBERWIDTH_HEAD]: the layer counts are Python integers,
    the widths are sizes. *)
Record ROI_FIBERWIDTH_HEAD : Type := mkCfg {
  NUM_CONV : Z;
  CONV_DIM : nat;
  NUM_FC : Z;
  FC_DIM : nat;
  NORM : string;
}.

Record ShapeSpec : Type := mkShapeSpec {
  channels : nat;
  height : nat;
  width : nat;
}.

(** [self._output_size] is first a tuple [(channels, height, width)], then
    an integer. *)
Inductive OutputSize : Type :=
  | SizeTuple (c h w : nat)
  | SizeInt (n : nat).

(** A signed 64-bit integer, with its wrap-around. *)
Definition int64 (z : Z) : Z := ((z + 2 ^ 63) mod 2 ^ 64 - 2 ^ 63)%Z.

(** [np.prod] of an output size: the product of a tuple is computed in
    64-bit integers and wraps around (for sizes that are themselves 64-bit
    integers); an integer is returned as it is. *)
Definition np_prod (o : OutputSize) : Z :=
  match o with
  | SizeTuple c h w => int64 (Z.of_nat c * Z.of_nat h * Z.of_nat w)
  | SizeInt n => Z.of_nat n
  end.

Section Head.
Context {R : Type} `{!Scalar R}.

(** [get_norm(norm, out_channels)] of the host library: the normalisation
    module a name stands for, if any; it raises for a name it does not
    know and for a channel count the module does not accept. *)
Variable get_norm : string → nat → Result (option (NormModule R)).

(** The values of the learnable parameters, by layer index: those the
    weight initialisation leaves, or any the optimiser writes later. *)
Record Params : Type := mkParams {
  conv_w : nat → nat → nat → nat → nat → R;
  conv_b : nat → nat → R;
  fc_w : nat → nat → nat → R;
  fc_b : nat → nat → R;
}.

(** The head: its two layer lists and its output size.  (The names under
    which [add_module] registers the layers are not part of the model.) *)
Record FiberWidthHeadFC : Type := mkHead {
  conv_norm_relus : list (Conv2d R);
  fcs : list (Linear R);
  _output_size : OutputSize;
}.

(** [nn.Linear(in_features, out_features)] for an [in_features] computed
    by [np.prod]: a negative size is refused. *)
Definition nn_Linear (in_features : Z) (out_features : nat)
    (weight : nat → nat → R) (bias : nat → R) : Result (Linear R) :=
  if decide (0 ≤ in_features)%Z
  then Ok (mkLinear (Z.to_nat in_features) out_features weight bias)
  else Err RuntimeError.

(** [for k in ks: st = f(st, k)], stopping at the first exception. *)
Fixpoint for_range {S : Type} (f : S → nat → Result S) (st : S)
    (ks : list nat) : Result S :=
  match ks with
  | [] => Ok st
  | k :: rest => st ← f st k; for_range f st rest
  end.

(** One round of [for k in range(num_conv)]. *)
Definition conv_step (cfg : ROI_FIBERWIDTH_HEAD) (θ : Params)
    (st : list (Conv2d R) * (nat * nat * nat)) (k : nat)
  : Result (list (Conv2d R) * (nat * nat * nat)) :=
  let '(convs, (c, h, w)) := st in
  nm ← get_norm (NORM cfg) (CONV_DIM cfg);
  let conv := {|
    in_channels := c;
    out_channels := CONV_DIM cfg;
    conv_weight := conv_w θ k;
    conv_bias := if decide (NORM cfg = ""%string) then Some (conv_b θ k)
                 else None;
    norm := nm;
  |} in
  Ok (convs ++ [conv], (CONV_DIM cfg, h, w)).

(** One round of [for k in range(num_fc)]. *)
Definition fc_step (cfg : ROI_FIBERWIDTH_HEAD) (θ : Params)
    (st : list (Linear R) * OutputSize) (k : nat)
  : Result (list (Linear R) * OutputSize) :=
  let '(fcs, osz) := st in
  fc ← nn_Linear (np_prod osz) (FC_DIM cfg) (fc_w θ k) (fc_b θ k);
  Ok (fcs ++ [fc], SizeInt (FC_DIM cfg)).

(** [range(n)] for a Python integer [n]. *)
Definition range (n : Z) : list nat := seq 0 (Z.to_nat n).

(** [FiberWidthHeadFC.__init__(cfg, input_shape)] *)
Definition __init__ (cfg : ROI_FIBERWIDTH_HEAD) (input_shape : ShapeSpec)
    (θ : Params) : Result FiberWidthHeadFC :=
  let num_conv := NUM_CONV cfg in
  let num_fc := NUM_FC cfg in
  let fc_dim := FC_DIM cfg in
  if bool_decide (num_conv + num_fc > 0)%Z then
    let output_size :=
      (channels input_shape, height input_shape, width input_shape) in
    '(conv_norm_relus, (c, h, w)) ←
      for_range (conv_step cfg θ) ([], output_size) (range num_conv);
    '(fcs, _) ←
      for_range (fc_step cfg θ) ([], SizeTuple c h w) (range num_fc);
    let k := Z.to_nat num_fc in
    let fc := mkLinear fc_dim 1 (fc_w θ k) (fc_b θ k) in
    Ok {| conv_norm_relus := conv_norm_relus;
          fcs := fcs ++ [fc];
          _output_size := SizeInt 1 |}
  else Err AssertionError.

(** [for layer in layers: x = f(layer, x)] *)
Fixpoint run_layers {L : Type} (f : L → Tensor R → Result (Tensor R))
    (layers : list L) (x : Tensor R) : Result (Tensor R) :=
  match layers with
  | [] => Ok x
  | layer :: rest => x ← f layer x; run_layers f rest x
  end.

(** [FiberWidthHeadFC.forward(x)] *)
Definition forward (self : FiberWidthHeadFC) (x : Tensor R)
  : Result (Tensor R) :=
  x ← run_layers Conv2d_forward (conv_norm_relus self) x;
  if decide (length (fcs self) ≠ 0) then
    x ← (if decide (2 < dim x) then flatten x else Ok x);
    run_layers (λ layer x, F_relu <$> Linear_forward layer x) (fcs self) x
  else Ok x.

(** The [output_size] property. *)
Definition output_size (self : FiberWidthHeadFC) : OutputSize :=
  _output_size self.

End Head.

Arguments Params R : clear implicits.
Arguments FiberWidthHeadFC R : clear implicits.

(** ** The world: instance containers, skip counter, event storage *)

Definition loc : Type := nat.

Section World.
Context {R : Type} `{!Scalar R}.

(** What the program uses of a detectron2 [Instances] object: its length
    and the two fields it reads or writes, either of which may be unset. *)
Record Instances : Type := mkInstances {
  len : nat;
  gt_fiberwidth : option (Tensor R);
  pred_fiberwidth : option (Tensor R);
}.

(** One [put_scalar] call received by the event storage. *)
Record Scalar_event : Type := mkEvent {
  ev_name : string;
  ev_value : Z;
  ev_smoothing_hint : bool;
}.

Record World : Type := mkWorld {
  heap : loc → Instances;
  _TOTAL_SKIPPED : Z;
  event_storage : list Scalar_event;
}.

(** Computations that may raise and that read or write the world; the
    world reached when an exception is raised is kept. *)
Record M (A : Type) : Type := mkM { run : World → Result A * World }.
Arguments mkM {A} _.
Arguments run {A} _ _.

#[export] Instance M_ret : MRet M := λ A a, mkM (λ w, (Ok a, w)).
#[export] Instance M_bind : MBind M := λ A B k m,
  mkM (λ w, match run m w with
            | (Ok a, w') => run (k a) w'
            | (Err e, w') => (Err e, w')
            end).

Definition lift {A} (r : Result A) : M A := mkM (λ w, (r, w)).

(** [len(i)] *)
Definition get_len (i : loc) : M nat :=
  mkM (λ w, (Ok (len (heap w i)), w)).

(** [i.gt_fiberwidth] *)
Definition getattr_gt_fiberwidth (i : loc) : M (Tensor R) :=
  mkM (λ w, match gt_fiberwidth (heap w i) with
            | Some t => (Ok t, w)
            | None => (Err AttributeError, w)
            end).

(** [i.pred_fiberwidth = t]: an [Instances] object accepts a field only
    if it is as long as the object (the field has a length: it is of
    dimension one or more). *)
Definition setattr_pred_fiberwidth (i : loc) (t : Tensor R) : M unit :=
  mkM (λ w,
    let o := heap w i in
    match shape t with
    | [] => (Err AssertionError, w)
    | n :: _ =>
        if decide (n = len o)
        then (Ok (),
              mkWorld (<[i := mkInstances (len o) (gt_fiberwidth o) (Some t)]>
                         (heap w))
                      (_TOTAL_SKIPPED w) (event_storage w))
        else (Err AssertionError, w)
    end).

(** [global _TOTAL_SKIPPED; _TOTAL_SKIPPED += 1], giving the new value. *)
Definition incr_TOTAL_SKIPPED : M Z :=
  mkM (λ w, (Ok (_TOTAL_SKIPPED w + 1)%Z,
             mkWorld (heap w) (_TOTAL_SKIPPED w + 1)%Z (event_storage w))).

(** [get_event_storage().put_scalar(name, value, smoothing_hint=hint)],
    in a world where an event storage is active (the training loop of
    the host framework provides one).  Without an active storage
    [get_event_storage] raises an assertion error; a [World] always has
    one, so that case lies outside this model. *)
Definition put_scalar (name : string) (value : Z) (hint : bool) : M unit :=
  mkM (λ w, (Ok (),
             mkWorld (heap w) (_TOTAL_SKIPPED w)
                     (event_storage w ++ [mkEvent name value hint]))).

(** ** [fiberwidth_loss] *)

(** The loop collecting the flattened ground truth of the images that
    have instances. *)
Fixpoint collect_fiberwidths (instances : list loc)
    (fiberwidths : list (Tensor R)) : M (list (Tensor R)) :=
  match instances with
  | [] => mret fiberwidths
  | instances_per_image :: rest =>
      n ← get_len instances_per_image;
      if decide (n = 0) then collect_fiberwidths rest fiberwidths
      else
        g ← getattr_gt_fiberwidth instances_per_image;
        collect_fiberwidths rest (fiberwidths ++ [view_flat g])
  end.

Definition fiberwidth_loss (pred_fiberwidths : Tensor R)
    (instances : list loc) : M (Tensor R) :=
  fiberwidths ← collect_fiberwidths instances [];
  fiberwidth_targets ←
    (if decide (length fiberwidths ≠ 0)
     then lift (Some <$> cat fiberwidths) else mret None);
  if decide (length fiberwidths = 0) then
    skipped ← incr_TOTAL_SKIPPED;
    put_scalar "fiberwidth_num_skipped_batches" skipped false;;
    mret (tmul (tsum pred_fiberwidths) s0)
  else
    match shape pred_fiberwidths, fiberwidth_targets with
    | [N; K], Some targets =>
        fiberwidth_targets ← lift (view targets [N; K]);
        lift (mse_loss pred_fiberwidths fiberwidth_targets)
    | _, _ => lift (Err ValueError)
    end.

(** ** [fiberwidth_inference] *)

(** [t.detach()]: the same values, cut from the gradient graph. *)
Definition detach (t : Tensor R) : Tensor R := t.

(** [[len(i) for i in pred_instances]] *)
Fixpoint lens (pred_instances : list loc) : M (list nat) :=
  match pred_instances with
  | [] => mret []
  | i :: rest => n ← get_len i; ns ← lens rest; mret (n :: ns)
  end.

(** The loop over [zip(fiberwidth_results, pred_instances)]. *)
Fixpoint attach (results : list (Tensor R)) (pred_instances : list loc)
  : M unit :=
  match results, pred_instances with
  | fiberwidth_results_per_image :: results, instances_per_image :: rest =>
      setattr_pred_fiberwidth instances_per_image
                              fiberwidth_results_per_image;;
      attach results rest
  | _, _ => mret ()
  end.

Definition fiberwidth_inference (pred_fiberwidths : Tensor R)
    (pred_instances : list loc) : M unit :=
  let fiberwidth_results := detach pred_fiberwidths in
  num_instances_per_image ← lens pred_instances;
  fiberwidth_results ← lift (split fiberwidth_results
                                   num_instances_per_image);
  attach fiberwidth_results pred_instances.

End World.

Arguments Instances R : clear implicits.
Arguments World R : clear implicits.
Arguments M R A : clear implicits.
Arguments mkM {R A} _.
Arguments run {R A} _ _.

(** ** Specification-side definitions *)

Section SpecDefs.
Context {R : Type} `{!Scalar R}.

(** Consecutive conv layers: the first reads [c] channels, every layer
    writes [d] channels. *)
Fixpoint conv_chain (c d : nat) (ls : list (Conv2d R)) : Prop :=
  match ls with
  | [] => True
  | l :: rest => in_channels l = c ∧ out_channels l = d ∧ conv_chain d d rest
  end.

(** Consecutive linear layers from width [i] to width [d]. *)
Fixpoint fc_chain (i d : nat) (ls : list (Linear R)) : Prop :=
  match ls with
  | [] => True
  | l :: rest => in_features l = i ∧ out_features l = d ∧ fc_chain d d rest
  end.

(** One fully-connected round of [forward]: the layer, then relu. *)
Definition fc_relu : Linear R → Tensor R → Result (Tensor R) :=
  λ layer x, F_relu <$> Linear_forward layer x.


(** The ground-truth scalars of one image, in instance order. *)
Definition gt_scalars (o : Instances R) : list R :=
  match gt_fiberwidth o with
  | Some t => data t
  | None => []
  end.

(** Their concatenation over a batch, in image order. *)
Definition gt_concat (w : World R) (instances : list loc) : list R :=
  concat ((λ i, gt_scalars (heap w i)) <$> instances).

(** The mean-squared error of two sequences of scalars. *)
Definition mse (preds targets : list R) : R :=
  sdivn (ssum (zip_with (λ p t, smul (ssub p t) (ssub p t)) preds targets))
        (length (zip_with (λ p t, smul (ssub p t) (ssub p t)) preds targets)).

(** The per-image instance counts of a batch. *)
Definition counts (w : World R) (instances : list loc) : list nat :=
  (λ i, len (heap w i)) <$> instances.

(** Every image of the batch has zero instances. *)
Definition all_empty (w : World R) (instances : list loc) : bool :=
  forallb (λ i, bool_decide (len (heap w i) = 0)) instances.

(** The metric reported on a skipped batch. *)
Definition skip_event (n : Z) : Scalar_event :=
  mkEvent "fiberwidth_num_skipped_batches" n false.

(** The world after one skipped batch. *)
Definition skipped_once (w : World R) : World R :=
  mkWorld (heap w) (_TOTAL_SKIPPED w + 1)%Z
          (event_storage w ++ [skip_event (_TOTAL_SKIPPED w + 1)]).

(** Rows [start, start + n) of a tensor along dimension 0. *)
Definition rows (t : Tensor R) (start n : nat) : Tensor R :=
  let row := prod (tail (shape t)) in
  mkTensor (n :: tail (shape t))
           (take (n * row) (drop (start * row) (data t))).

(** What the collecting loop of [fiberwidth_loss] computes from the
    heap: the flattened ground truth of the images that have instances,
    or the attribute error of the first such image without the field. *)
Fixpoint gathered (hp : loc → Instances R) (instances : list loc)
  : Result (list (Tensor R)) :=
  match instances with
  | [] => Ok []
  | i :: rest =>
      if decide (len (hp i) = 0) then gathered hp rest
      else match gt_fiberwidth (hp i) with
           | Some g => (view_flat g ::.) <$> gathered hp rest
           | None => Err AttributeError
           end
  end.

(** The part of [fiberwidth_loss] after the loop, on a non-empty list. *)
Definition loss_of (pred_fiberwidths : Tensor R)
    (fiberwidths : list (Tensor R)) : Result (Tensor R) :=
  targets ← cat fiberwidths;
  match shape pred_fiberwidths with
  | [N; K] => targets ← view targets [N; K]; mse_loss pred_fiberwidths targets
  | _ => Err ValueError
  end.

End SpecDefs.

(** ** Concrete inputs, over integer scalars *)

Module Ex.

(** A [get_norm] after detectron2's: no module for the empty name; a
    group norm of 32 groups for ["GN"], which needs a channel count
    divisible by 32; a module for the batch-norm names; a key error for
    any other name.  (The modules pass their input through.) *)
Definition get_norm (name : string) (c : nat)
  : Result (option (NormModule Z)) :=
  if decide (name = ""%string) then Ok None
  else if decide (name = "GN"%string) then
    if decide (c `mod` 32 = 0) then Ok (Some (mkNorm (λ _ d, d)))
    else Err ValueError
  else if decide (name ∈ ["BN"; "SyncBN"; "FrozenBN"]%string)
  then Ok (Some (mkNorm (λ _ d, d)))
  else Err KeyError.

Definition θ : Params Z :=
  mkParams (λ k o c di dj, Z.of_nat (k + o + c + di + dj) - 3)%Z
           (λ k o, 1%Z)
           (λ k o i, Z.of_nat (o + i) - 1)%Z
           (λ k o, (-2)%Z).

(** One conv layer of width 2, no hidden fc layer, [fc_dim] 3. *)
Definition cfg_conv_only : ROI_FIBERWIDTH_HEAD := mkCfg 1 2 0 3 "".

(** One conv layer of width 2, two hidden fc layers of width 3. *)
Definition cfg_conv_fc : ROI_FIBERWIDTH_HEAD := mkCfg 1 2 2 3 "".


Definition input_shape : ShapeSpec := mkShapeSpec 1 2 2.

(** A batch of two 1x2x2 feature maps. *)
Definition x : Tensor Z := mkTensor [2; 1; 2; 2] [1; 2; 3; 4; 5; 6; 7; 8]%Z.

(** Three images with 2, 0 and 3 instances; the empty one carries no
    ground truth. *)
Definition objects (l : loc) : Instances Z :=
  match l with
  | 0 => mkInstances 2 (Some (mkTensor [2] [10; 20]%Z)) None
  | 2 => mkInstances 3 (Some (mkTensor [3; 1] [30; 40; 50]%Z)) None
  | 4 => mkInstances 1 None None
  | _ => mkInstances 0 None None
  end.

Definition w : World Z := mkWorld objects 7 [].

Definition pred : Tensor Z := mkTensor [5; 1] [1; 2; 3; 4; 5]%Z.

End Ex.

(** ** Further definitions: the registry, closed forms, batches *)

(** [cfg.MODEL.ROI_FIBERWIDTH_HEAD] with its [NAME] option. *)
Record Named_cfg : Type := mkNamed {
  NAME : string;
  options : ROI_FIBERWIDTH_HEAD;
}.

Section Registry.
Context {R : Type} `{!Scalar R}.
Variable get_norm : string → nat → Result (option (NormModule R)).

(** A registered object: called with [obj(cfg, input_shape)], it builds a
    head (drawing the parameter values [θ]). *)
Definition Factory : Type :=
  ROI_FIBERWIDTH_HEAD → ShapeSpec → Params R → Result (FiberWidthHeadFC R).

(** The registry's map from names to objects. *)
Definition Registry : Type := string → option Factory.

(** [Registry("ROI_FIBERWIDTH_HEAD")]: nothing registered. *)
Definition Registry_new : Registry := λ _, None.

(** [registry.register()] applied to an object of a given name: a name is
    registered once. *)
Definition register (name : string) (obj : Factory) (reg : Registry)
  : Result Registry :=
  match reg name with
  | Some _ => Err AssertionError
  | None => Ok (<[name := Some obj]> reg)
  end.

(** [registry.get(name)]: a key error for a name that is not registered. *)
Definition Registry_get (reg : Registry) (name : string) : Result Factory :=
  match reg name with
  | Some obj => Ok obj
  | None => Err KeyError
  end.

(** The registry once the module is loaded: the decorator has registered
    the class under its name. *)
Definition ROI_FIBERWIDTH_HEAD_REGISTRY : Result Registry :=
  register "FiberWidthHeadFC" (__init__ get_norm) Registry_new.

(** [build_fiberwidth_head(cfg, input_shape)] on a registry. *)
Definition build_fiberwidth_head (reg : Registry) (cfg : Named_cfg)
    (input_shape : ShapeSpec) (θ : Params R)
  : Result (FiberWidthHeadFC R) :=
  let name := NAME cfg in
  obj ← Registry_get reg name;
  obj (options cfg) input_shape θ.

End Registry.

Section MoreSpecDefs.
Context {R : Type} `{!Scalar R}.

(** The conv layer that round [k] of the constructor builds, with the
    norm module [nm] that [get_norm] has returned. *)
Definition conv_layer (nm : option (NormModule R))
    (cfg : ROI_FIBERWIDTH_HEAD) (s : ShapeSpec)
    (θ : Params R) (k : nat) : Conv2d R :=
  mkConv2d (if decide (k = 0) then channels s else CONV_DIM cfg)
           (CONV_DIM cfg) (conv_w θ k)
           (if decide (NORM cfg = ""%string) then Some (conv_b θ k) else None)
           nm.

(** The number of channels that reach the fully-connected layers. *)
Definition conv_out_channels (cfg : ROI_FIBERWIDTH_HEAD) (s : ShapeSpec)
  : nat :=
  if decide (0 < NUM_CONV cfg)%Z then CONV_DIM cfg else channels s.

(** The size of one flattened feature map after the conv layers. *)
Definition flat_size (cfg : ROI_FIBERWIDTH_HEAD) (s : ShapeSpec) : nat :=
  conv_out_channels cfg s * height s * width s.

(** What [np.prod] makes of that size when the first hidden layer is
    built. *)
Definition first_in_features (cfg : ROI_FIBERWIDTH_HEAD) (s : ShapeSpec)
  : Z :=
  np_prod (SizeTuple (conv_out_channels cfg s) (height s) (width s)).

(** Every size of the configuration and of the input shape is at least
    one. *)
Definition positive_sizes (cfg : ROI_FIBERWIDTH_HEAD) (s : ShapeSpec)
  : Prop :=
  1 ≤ channels s ∧ 1 ≤ height s ∧ 1 ≤ width s
  ∧ 1 ≤ CONV_DIM cfg ∧ 1 ≤ FC_DIM cfg.

(** A hidden fully-connected layer of index [k], the first one reading
    [first] features. *)
Definition hidden_layer (first : nat) (cfg : ROI_FIBERWIDTH_HEAD)
    (θ : Params R) (k : nat) : Linear R :=
  mkLinear (if decide (k = 0) then first else FC_DIM cfg)
           (FC_DIM cfg) (fc_w θ k) (fc_b θ k).

(** The hidden fully-connected layer that round [k] of the constructor
    builds. *)
Definition fc_layer (cfg : ROI_FIBERWIDTH_HEAD) (s : ShapeSpec)
    (θ : Params R) (k : nat) : Linear R :=
  hidden_layer (Z.to_nat (first_in_features cfg s)) cfg θ k.

(** The final single-output layer. *)
Definition final_layer (cfg : ROI_FIBERWIDTH_HEAD) (θ : Params R)
  : Linear R :=
  mkLinear (FC_DIM cfg) 1 (fc_w θ (Z.to_nat (NUM_FC cfg)))
           (fc_b θ (Z.to_nat (NUM_FC cfg))).

(** The head that the constructor builds when nothing raises. *)
Definition built_head (nm : option (NormModule R))
    (cfg : ROI_FIBERWIDTH_HEAD) (s : ShapeSpec) (θ : Params R)
  : FiberWidthHeadFC R :=
  mkHead (conv_layer nm cfg s θ <$> range (NUM_CONV cfg))
         ((fc_layer cfg s θ <$> range (NUM_FC cfg)) ++ [final_layer cfg θ])
         (SizeInt 1).


(** The images of a batch that have instances. *)
Definition nonempty (w : World R) (instances : list loc) : list loc :=
  filter (λ i, len (heap w i) ≠ 0) instances.

(** The element count that the shape of an image's ground truth states. *)
Definition gt_numel (o : Instances R) : nat :=
  match gt_fiberwidth o with
  | Some t => numel t
  | None => 0
  end.

(** The predicted scalars attached to one image. *)
Definition pred_scalars (o : Instances R) : list R :=
  match pred_fiberwidth o with
  | Some t => data t
  | None => []
  end.

(** The world after a sequence of [fiberwidth_loss] calls, one per batch
    (predictions, images), whatever each call returns. *)
Definition after_losses (w : World R)
    (batches : list (Tensor R * list loc)) : World R :=
  foldl (λ w b, (run (fiberwidth_loss b.1 b.2) w).2) w batches.

(** How many batches of a sequence have only empty images. *)
Definition skipped_batches (w : World R)
    (batches : list (Tensor R * list loc)) : nat :=
  length (filter (λ b, all_empty w b.2 = true) batches).

End MoreSpecDefs.

(** ** More concrete inputs *)

Module Ex2.

(** No conv layer, two hidden fc layers of width 3. *)
Definition cfg_fc_only : ROI_FIBERWIDTH_HEAD := mkCfg 0 2 2 3 "".



(** A configuration that names a registered head, and one that does not. *)
Definition named : Named_cfg := mkNamed "FiberWidthHeadFC" Ex.cfg_conv_fc.
Definition misnamed : Named_cfg := mkNamed "FiberWidthHead" Ex.cfg_conv_fc.

(** The world [Ex.w] after inference on its three images. *)
Definition w_inferred : World Z :=
  (run (fiberwidth_inference Ex.pred [0; 1; 2]) Ex.w).2.

(** Predictions for four instances only. *)
Definition pred4 : Tensor Z := mkTensor [4; 1] [1; 2; 3; 4]%Z.

End Ex2.

(** * Properties *)

(** ** The head *)

Section HeadFacts.
Context {R : Type} `{!Scalar R}.
Variable get_norm : string → nat → Result (option (NormModule R)).
Variable cfg : ROI_FIBERWIDTH_HEAD.
Variable θ : Params R.

Lemma prod3 (c h w : nat) : prod [c; h; w] = c * h * w.
Proof. unfold prod; simpl; lia. Qed.

Lemma int64_small (z : Z) : (0 ≤ z < 2 ^ 63)%Z → int64 z = z.
Proof. intros Hz. unfold int64. rewrite Z.mod_small; lia. Qed.

(** The conv loop: nothing for an empty range, otherwise [get_norm]
    decides. *)
Lemma conv_for_range n : ∀ a acc c h w,
  for_range (conv_step get_norm cfg θ) (acc, (c, h, w)) (seq a n)
  = match n with
    | 0 => Ok (acc, (c, h, w))
    | S _ =>
        nm ← get_norm (NORM cfg) (CONV_DIM cfg);
        Ok (acc ++ ((λ k, mkConv2d
                            (if decide (k = a) then c else CONV_DIM cfg)
                            (CONV_DIM cfg) (conv_w θ k)
                            (if decide (NORM cfg = ""%string)
                             then Some (conv_b θ k) else None) nm)
                      <$> seq a n),
            (CONV_DIM cfg, h, w))
    end.
Proof.
  induction n as [|n IH]; intros a acc c h w; [done|].
  cbn [seq for_range conv_step].
  destruct (get_norm (NORM cfg) (CONV_DIM cfg)) as [nm|e] eqn:Egn; [|done].
  cbn [mbind Result_bind rbind]. rewrite IH.
  destruct n as [|n].
  { simpl. by destruct (decide (a = a)). }
  rewrite ?Egn. cbn [mbind Result_bind rbind].
  rewrite <- app_assoc. do 3 f_equal.
  change (seq a (S (S n))) with (a :: seq (S a) (S n)).
  rewrite fmap_cons. cbn [app].
  destruct (decide (a = a)) as [_|]; [|done]. f_equal.
  apply Forall_fmap_ext, Forall_seq. intros k Hk.
  destruct (decide (k = a)); [lia|].
  by destruct (decide (k = S a)).
Qed.

(** The fc loop: nothing for an empty range, otherwise the first layer
    needs a size that [np.prod] has not wrapped below zero. *)
Lemma fc_for_range n : ∀ a acc o,
  for_range (fc_step cfg θ) (acc, o) (seq a n)
  = match n with
    | 0 => Ok (acc, o)
    | S _ =>
        if decide (0 ≤ np_prod o)%Z
        then Ok (acc ++ ((λ k, mkLinear
                                 (if decide (k = a) then Z.to_nat (np_prod o)
                                  else FC_DIM cfg)
                                 (FC_DIM cfg) (fc_w θ k) (fc_b θ k))
                           <$> seq a n),
                 SizeInt (FC_DIM cfg))
        else Err RuntimeError
    end.
Proof.
  induction n as [|n IH]; intros a acc o; [done|].
  cbn [seq for_range fc_step]. unfold nn_Linear.
  destruct (decide (0 ≤ np_prod o)%Z) as [Hpos|Hneg]; [|done].
  cbn [mbind Result_bind rbind]. rewrite IH.
  destruct n as [|n].
  { simpl. by destruct (decide (a = a)). }
  rewrite decide_True by (simpl; lia).
  rewrite <- app_assoc. do 3 f_equal.
  change (seq a (S (S n))) with (a :: seq (S a) (S n)).
  rewrite fmap_cons. cbn [app].
  destruct (decide (a = a)) as [_|]; [|done]. f_equal.
  apply Forall_fmap_ext, Forall_seq. intros k Hk.
  destruct (decide (k = a)); [lia|].
  destruct (decide (k = S a)); [|done].
  simpl. by rewrite Nat2Z.id.
Qed.

(** The constructor, loops solved. *)
Lemma init_unfold (s : ShapeSpec) :
  __init__ get_norm cfg s θ
  = if decide (NUM_CONV cfg + NUM_FC cfg > 0)%Z
    then
      nm ← (if decide (0 < NUM_CONV cfg)%Z
            then get_norm (NORM cfg) (CONV_DIM cfg) else Ok None);
      if decide ((0 < NUM_FC cfg)%Z ∧ (first_in_features cfg s < 0)%Z)
      then Err RuntimeError
      else Ok (built_head nm cfg s θ)
    else Err AssertionError.
Proof.
  unfold __init__. case_bool_decide as Hpos.
  2:{ by rewrite decide_False. }
  rewrite decide_True by done.
  unfold range, first_in_features, conv_out_channels.
  rewrite conv_for_range.
  assert (Hfc : ∀ c nm convs,
    c = (if decide (0 < NUM_CONV cfg)%Z then CONV_DIM cfg else channels s) →
    convs = conv_layer nm cfg s θ <$> seq 0 (Z.to_nat (NUM_CONV cfg)) →
    ('(fcs, _) ← for_range (fc_step cfg θ)
                   ([], SizeTuple c (height s) (width s))
                   (seq 0 (Z.to_nat (NUM_FC cfg)));
     Ok (mkHead convs
           (fcs ++ [mkLinear (FC_DIM cfg) 1 (fc_w θ (Z.to_nat (NUM_FC cfg)))
                             (fc_b θ (Z.to_nat (NUM_FC cfg)))])
           (SizeInt 1)))
    = if decide ((0 < NUM_FC cfg)%Z
                 ∧ (np_prod (SizeTuple c (height s) (width s)) < 0)%Z)
      then Err RuntimeError
      else Ok (built_head nm cfg s θ)).
  { intros c nm convs Hc ->. rewrite fc_for_range.
    unfold built_head, range, final_layer.
    destruct (Z.to_nat (NUM_FC cfg)) as [|m] eqn:Em.
    - simpl. rewrite decide_False by lia. done.
    - destruct (decide (0 ≤ np_prod (SizeTuple c (height s) (width s)))%Z)
        as [Hnn|Hneg].
      + rewrite decide_False by lia. cbn [mbind Result_bind rbind app].
        do 2 f_equal. f_equal.
        apply Forall_fmap_ext, Forall_seq. intros k Hk.
        unfold fc_layer, first_in_features, conv_out_channels.
        by rewrite Hc.
      + rewrite decide_True by lia. done. }
  destruct (decide (0 < NUM_CONV cfg)%Z) as [Hc|Hc].
  - destruct (Z.to_nat (NUM_CONV cfg)) as [|m] eqn:Em; [lia|].
    destruct (get_norm (NORM cfg) (CONV_DIM cfg)) as [nm|e]; [|done].
    cbn [mbind Result_bind rbind app].
    apply (Hfc _ nm); [done|]. rewrite <- Em. done.
  - replace (Z.to_nat (NUM_CONV cfg)) with 0 by lia.
    cbn [mbind Result_bind rbind].
    apply (Hfc _ None); [done|]. by replace (Z.to_nat (NUM_CONV cfg)) with 0 by lia.
Qed.

Lemma conv_chain_seq (g : nat → Conv2d R) d n : ∀ a c,
  (∀ k, a ≤ k → out_channels (g k) = d
                ∧ in_channels (g k) = if decide (k = a) then c else d) →
  conv_chain c d (g <$> seq a n).
Proof.
  induction n as [|n IH]; intros a c Hg; [done|].
  cbn [seq fmap list_fmap conv_chain].
  destruct (Hg a (le_n a)) as [Ho Hi].
  rewrite decide_True in Hi by done.
  split; [done|]. split; [done|].
  apply IH. intros k Hk. destruct (Hg k) as [Ho' Hi']; [lia|].
  rewrite decide_False in Hi' by lia. split; [done|].
  by destruct (decide (k = S a)).
Qed.

Lemma fc_chain_seq (g : nat → Linear R) d n : ∀ a i,
  (∀ k, a ≤ k → out_features (g k) = d
                ∧ in_features (g k) = if decide (k = a) then i else d) →
  fc_chain i d (g <$> seq a n).
Proof.
  induction n as [|n IH]; intros a i Hg; [done|].
  cbn [seq fmap list_fmap fc_chain].
  destruct (Hg a (le_n a)) as [Ho Hi].
  rewrite decide_True in Hi by done.
  split; [done|]. split; [done|].
  apply IH. intros k Hk. destruct (Hg k) as [Ho' Hi']; [lia|].
  rewrite decide_False in Hi' by lia. split; [done|].
  by destruct (decide (k = S a)).
Qed.

(** The shape of a constructed head. *)
Lemma init_inv (s : ShapeSpec) (h : FiberWidthHeadFC R) :
  __init__ get_norm cfg s θ = Ok h →
  ∃ pre,
    (NUM_CONV cfg + NUM_FC cfg > 0)%Z
    ∧ conv_chain (channels s) (CONV_DIM cfg) (conv_norm_relus h)
    ∧ length (conv_norm_relus h) = Z.to_nat (NUM_CONV cfg)
    ∧ fcs h = pre ++ [mkLinear (FC_DIM cfg) 1
                        (fc_w θ (Z.to_nat (NUM_FC cfg)))
                        (fc_b θ (Z.to_nat (NUM_FC cfg)))]
    ∧ fc_chain (Z.to_nat (first_in_features cfg s)) (FC_DIM cfg) pre
    ∧ length pre = Z.to_nat (NUM_FC cfg)
    ∧ _output_size h = SizeInt 1.
Proof.
  rewrite init_unfold. destruct (decide _) as [Hpos|]; [|done].
  destruct (if decide (0 < NUM_CONV cfg)%Z
            then get_norm (NORM cfg) (CONV_DIM cfg) else Ok None)
    as [nm|e]; [|done].
  cbn [mbind Result_bind rbind].
  destruct (decide _); [done|]. intros [= <-].
  exists (fc_layer cfg s θ <$> range (NUM_FC cfg)).
  unfold built_head, range. cbn [conv_norm_relus fcs _output_size].
  rewrite !length_fmap, !length_seq.
  repeat split; try done.
  - apply conv_chain_seq. intros k _. unfold conv_layer. simpl. done.
  - apply fc_chain_seq. intros k _. unfold fc_layer. simpl. done.
Qed.

Lemma run_layers_app {L} (f : L → Tensor R → Result (Tensor R)) l1 : ∀ l2 x,
  run_layers f (l1 ++ l2) x = (y ← run_layers f l1 x; run_layers f l2 y).
Proof.
  induction l1 as [|a l1 IH]; intros l2 x; [done|].
  simpl. destruct (f a x) as [y|e]; [|done]. apply IH.
Qed.

Lemma Conv2d_forward_shape (l : Conv2d R) x N C H W :
  shape x = [N; C; H; W] →
  match Conv2d_forward l x with
  | Ok y => (C = in_channels l ∧ 1 ≤ H ∧ 1 ≤ W ∧ 1 ≤ out_channels l)
            ∧ shape y = [N; out_channels l; H; W]
  | Err e => e = RuntimeError
             ∧ ¬ (C = in_channels l ∧ 1 ≤ H ∧ 1 ≤ W ∧ 1 ≤ out_channels l)
  end.
Proof.
  intros Hx. unfold Conv2d_forward. rewrite Hx.
  destruct (decide _) as [Hok|Hno]; [|done].
  split; [done|]. by destruct (norm l).
Qed.

Lemma run_convs ls : ∀ x N c d H W,
  conv_chain c d ls → shape x = [N; c; H; W] →
  match run_layers Conv2d_forward ls x with
  | Ok y => shape y = [N; match ls with [] => c | _ => d end; H; W]
            ∧ (ls ≠ [] → 1 ≤ H ∧ 1 ≤ W ∧ 1 ≤ d)
  | Err e => e = RuntimeError ∧ ls ≠ [] ∧ ¬ (1 ≤ H ∧ 1 ≤ W ∧ 1 ≤ d)
  end.
Proof.
  induction ls as [|l ls IH]; intros x N c d H W Hch Hx; [done|].
  destruct Hch as (Hin & Hout & Hch). simpl.
  pose proof (Conv2d_forward_shape l x N c H W Hx) as Hl.
  destruct (Conv2d_forward l x) as [y|e]; simpl.
  - destruct Hl as ((_ & HH & HW & HD) & Hy). rewrite Hout in Hy, HD.
    specialize (IH y N d d H W Hch Hy).
    destruct (run_layers Conv2d_forward ls y) as [z|e].
    + destruct IH as [Hz _]. split; [|done]. by destruct ls.
    + destruct IH as (-> & _ & Hno). done.
  - destruct Hl as [-> Hno]. split; [done|]. split; [done|].
    intros Hhw. apply Hno. by rewrite Hin, Hout.
Qed.

Lemma Linear_forward_shape (l : Linear R) x N k :
  shape x = [N; k] →
  match Linear_forward l x with
  | Ok y => k = in_features l ∧ shape y = [N; out_features l]
  | Err e => e = RuntimeError ∧ k ≠ in_features l
  end.
Proof.
  intros Hx. unfold Linear_forward. rewrite Hx. simpl.
  destruct (decide _); done.
Qed.

Lemma fc_relu_shape (l : Linear R) x N k :
  shape x = [N; k] →
  match fc_relu l x with
  | Ok y => k = in_features l ∧ shape y = [N; out_features l]
  | Err e => e = RuntimeError ∧ k ≠ in_features l
  end.
Proof.
  intros Hx. unfold fc_relu.
  pose proof (Linear_forward_shape l x N k Hx) as Hl.
  destruct (Linear_forward l x); done.
Qed.

Lemma run_fcs ls : ∀ x N i d,
  fc_chain i d ls → shape x = [N; i] →
  ∃ y, run_layers fc_relu ls x = Ok y
       ∧ shape y = [N; match ls with [] => i | _ => d end].
Proof.
  induction ls as [|l ls IH]; intros x N i d Hch Hx; [by exists x|].
  destruct Hch as (Hin & Hout & Hch). simpl.
  pose proof (fc_relu_shape l x N i Hx) as Hl.
  destruct (fc_relu l x) as [y|e]; simpl.
  - destruct Hl as [_ Hy]. rewrite Hout in Hy.
    destruct (IH y N d d Hch Hy) as (z & Hz & Hsz).
    exists z. split; [done|]. by destruct ls.
  - destruct Hl as [_ Hne]. by rewrite Hin in Hne.
Qed.

(** The layers after the flattening, on rows of [k] elements: the first
    layer must read [k]. *)
Lemma run_all_fcs (ls : list (Linear R)) (final : Linear R) x N k i d :
  fc_chain i d ls → in_features final = d → out_features final = 1 →
  shape x = [N; k] →
  let first := match ls with [] => d | _ => i end in
  if decide (k = first)
  then ∃ y, run_layers fc_relu (ls ++ [final]) x = Ok y ∧ shape y = [N; 1]
  else run_layers fc_relu (ls ++ [final]) x = Err RuntimeError.
Proof.
  intros Hch Hfi Hfo Hx first. subst first.
  destruct ls as [|l ls].
  - simpl. pose proof (fc_relu_shape final x N k Hx) as Hl.
    destruct (fc_relu final x) as [y|e]; simpl.
    + destruct Hl as [Hk Hy]. rewrite decide_True by congruence.
      exists y. by rewrite Hy, Hfo.
    + destruct Hl as [-> Hk]. rewrite decide_False by congruence. done.
  - destruct (decide (k = i)) as [->|Hne].
    + rewrite run_layers_app.
      destruct (run_fcs (l :: ls) x N i d Hch Hx) as (z & Hz & Hsz).
      rewrite Hz. simpl.
      pose proof (fc_relu_shape final z N d Hsz) as Hl.
      destruct (fc_relu final z) as [y|e]; simpl.
      * destruct Hl as [_ Hy]. exists y. by rewrite Hy, Hfo.
      * destruct Hl as [_ Hk]. congruence.
    + destruct Hch as (Hin & _). simpl.
      pose proof (fc_relu_shape l x N k Hx) as Hl.
      destruct (fc_relu l x) as [y|e]; simpl.
      * destruct Hl as [Hk _]. congruence.
      * by destruct Hl as [-> _].
Qed.

(** What [forward] does on an input of the construction-time shape. *)
Lemma forward_cases (s : ShapeSpec) (h : FiberWidthHeadFC R) x N :
  __init__ get_norm cfg s θ = Ok h →
  shape x = [N; channels s; height s; width s] →
  let first := if decide (NUM_FC cfg ≤ 0)%Z then FC_DIM cfg
               else Z.to_nat (first_in_features cfg s) in
  if decide ((0 < NUM_CONV cfg)%Z
             ∧ ¬ (1 ≤ height s ∧ 1 ≤ width s ∧ 1 ≤ CONV_DIM cfg))
  then forward h x = Err RuntimeError
  else if decide (flat_size cfg s = first)
  then ∃ y, forward h x = Ok y ∧ shape y = [N; 1]
  else forward h x = Err RuntimeError.
Proof.
  intros Hinit Hx first.
  destruct (init_inv s h Hinit)
    as (pre & Hpos & Hcc & Hcl & Hfcs & Hfc & Hfl & _).
  set (c := conv_out_channels cfg s).
  assert (Hc : match conv_norm_relus h with
               | [] => channels s | _ => CONV_DIM cfg end = c).
  { unfold c, conv_out_channels.
    destruct (conv_norm_relus h); simpl in Hcl; case_decide; lia. }
  assert (Hne : conv_norm_relus h ≠ [] ↔ (0 < NUM_CONV cfg)%Z).
  { destruct (conv_norm_relus h); simpl in Hcl; split; try done; lia. }
  pose proof (run_convs _ x N _ _ _ _ Hcc Hx) as Hrun. rewrite Hc in Hrun.
  set (final := mkLinear (FC_DIM cfg) 1 (fc_w θ (Z.to_nat (NUM_FC cfg)))
                         (fc_b θ (Z.to_nat (NUM_FC cfg)))) in *.
  assert (Hfirst : match pre with
                   | [] => FC_DIM cfg
                   | _ => Z.to_nat (first_in_features cfg s)
                   end = first).
  { unfold first. destruct pre; simpl in Hfl; case_decide; lia. }
  destruct (run_layers Conv2d_forward (conv_norm_relus h) x) as [y|e] eqn:Ey.
  - destruct Hrun as [Hy Hhw].
    rewrite decide_False by (intros [Hp Hn]; apply Hn, Hhw, Hne, Hp).
    assert (Hfwd : forward h x
                   = run_layers fc_relu (pre ++ [final])
                       (mkTensor [N; flat_size cfg s] (data y))).
    { unfold forward. fold fc_relu. rewrite Ey. simpl.
      rewrite decide_True by (rewrite Hfcs, length_app; simpl; lia).
      rewrite decide_True by (unfold dim; rewrite Hy; simpl; lia).
      unfold flatten. rewrite Hy, prod3. simpl. by rewrite Hfcs. }
    rewrite Hfwd.
    pose proof (run_all_fcs pre final
                  (mkTensor [N; flat_size cfg s] (data y)) N
                  (flat_size cfg s) _ _ Hfc eq_refl eq_refl eq_refl) as Hall.
    cbv zeta in Hall. rewrite Hfirst in Hall. exact Hall.
  - destruct Hrun as (-> & Hnil & Hhw).
    assert (Hfwd : forward h x = Err RuntimeError).
    { unfold forward. by rewrite Ey. }
    rewrite Hfwd, decide_True; [done|]. by rewrite <- Hne.
Qed.



End HeadFacts.

Section HeadClaims.
Context {R : Type} `{!Scalar R}.
Implicit Types (get_norm : string → nat → Result (option (NormModule R)))
  (cfg : ROI_FIBERWIDTH_HEAD) (s : ShapeSpec) (θ : Params R)
  (h : FiberWidthHeadFC R) (x y : Tensor R).

Lemma first_in_features_fits cfg s :
  (Z.of_nat (flat_size cfg s) < 2 ^ 63)%Z →
  first_in_features cfg s = Z.of_nat (flat_size cfg s).
Proof.
  intros Hfit. unfold first_in_features, np_prod, flat_size in *.
  rewrite <- !Nat2Z.inj_mul. apply int64_small. lia.
Qed.

(** X3: with at least one hidden fully-connected layer, sizes that are all
    at least one, a flattened feature size below 2^63 and conv layers
    without norm module, the forward pass on an input of the
    construction-time shape gives a tensor of shape (N, 1). *)
Theorem forward_shape_hidden_fc get_norm cfg s θ h x N :
  __init__ get_norm cfg s θ = Ok h →
  shape x = [N; channels s; height s; width s] →
  (0 < NUM_FC cfg)%Z →
  positive_sizes cfg s →
  (Z.of_nat (flat_size cfg s) < 2 ^ 63)%Z →
  ((0 < NUM_CONV cfg)%Z → get_norm (NORM cfg) (CONV_DIM cfg) = Ok None) →
  ∃ y, forward h x = Ok y ∧ shape y = [N; 1].
Proof.
  intros Hinit Hx Hfc (Hc & Hh & Hw & Hcd & Hfd) Hfit _.
  pose proof (forward_cases get_norm cfg θ s h x N Hinit Hx) as Hcases.
  cbv zeta in Hcases.
  rewrite decide_False in Hcases by (intros [_ Hn]; by apply Hn).
  rewrite (decide_False (P := (NUM_FC cfg ≤ 0)%Z)) in Hcases by lia.
  rewrite first_in_features_fits, Nat2Z.id in Hcases by done.
  by rewrite decide_True in Hcases.
Qed.




End HeadClaims.

(** C1 at a failing input: a head with one conv layer of width 2, no
    hidden fully-connected layer and [fc_dim = 3], built for 1x2x2 feature
    maps, is constructed ([get_norm] returning for the empty name), and
    its forward pass on a batch of two such maps raises a runtime error
    instead of returning a tensor of shape (2, 1). *)
Theorem forward_conv_only_raises {R : Type} `{!Scalar R}
    (get_norm : string → nat → Result (option (NormModule R)))
    (nm : option (NormModule R)) (θ : Params R) (d : list R) :
  get_norm ""%string 2 = Ok nm →
  ∃ h, __init__ get_norm Ex.cfg_conv_only Ex.input_shape θ = Ok h
       ∧ forward h (mkTensor [2; 1; 2; 2] d) = Err RuntimeError.
Proof.
  intros Hnm.
  destruct (__init__ get_norm Ex.cfg_conv_only Ex.input_shape θ) as [h|e] eqn:E.
  - exists h. split; [done|].
    by pose proof (forward_cases get_norm _ θ _ h (mkTensor [2; 1; 2; 2] d) 2
                     E eq_refl) as Hc.
  - rewrite init_unfold in E. simpl in E. rewrite Hnm in E. done.
Qed.

Lemma forward_conv_only_raises_witness :
  ∃ h, __init__ Ex.get_norm Ex.cfg_conv_only Ex.input_shape Ex.θ = Ok h
       ∧ forward h Ex.x = Err RuntimeError.
Proof.
  apply (forward_conv_only_raises Ex.get_norm None Ex.θ (data Ex.x)).
  reflexivity.
Defined.





(** ** The loss *)

Section LossFacts.
Context {R : Type} `{!Scalar R}.
Implicit Types (w : World R) (hp : loc → Instances R)
  (pred : Tensor R) (instances : list loc) (fw : list (Tensor R)).

(** The collecting loop leaves the world as it is and returns what
    [gathered] describes. *)
Lemma collect_run instances : ∀ fw w,
  run (collect_fiberwidths instances fw) w
  = ((fw ++.) <$> gathered (heap w) instances, w).
Proof.
  induction instances as [|i rest IH]; intros fw w; simpl.
  - by rewrite app_nil_r.
  - destruct (decide (len (heap w i) = 0)); [apply IH|].
    unfold M_bind; simpl.
    destruct (gt_fiberwidth (heap w i)) as [g|]; [|done].
    rewrite IH. destruct (gathered (heap w) rest) as [new|e]; [|done].
    simpl. by rewrite <- app_assoc.
Qed.

Lemma loss_run pred instances w :
  run (fiberwidth_loss pred instances) w
  = match gathered (heap w) instances with
    | Err e => (Err e, w)
    | Ok [] => (Ok (tmul (tsum pred) s0), skipped_once w)
    | Ok fw => (loss_of pred fw, w)
    end.
Proof.
  unfold fiberwidth_loss. unfold mbind, M_bind. cbn [run].
  rewrite collect_run.
  destruct (gathered (heap w) instances) as [[|t fw]|e]; [done| |done].
  cbn -[cat view mse_loss]. unfold loss_of.
  rewrite decide_True by done.
  destruct (cat (t :: fw)) as [targets|e]; [|done].
  cbn -[view mse_loss]. rewrite decide_False by done.
  destruct (shape pred) as [|N [|K [|? ?]]]; try done.
  cbn -[view mse_loss]. by destruct (view targets [N; K]).
Qed.

Lemma gathered_all_empty w instances :
  all_empty w instances = true ↔ gathered (heap w) instances = Ok [].
Proof.
  induction instances as [|i rest IH]; simpl; [done|].
  rewrite andb_true_iff, bool_decide_eq_true, IH.
  destruct (decide (len (heap w i) = 0)) as [He|Hne]; [tauto|].
  split; [tauto|].
  destruct (gt_fiberwidth (heap w i)); [|done].
  by destruct (gathered (heap w) rest).
Qed.


Lemma gathered_missing hp instances i :
  i ∈ instances → len (hp i) ≠ 0 → gt_fiberwidth (hp i) = None →
  gathered hp instances = Err AttributeError.
Proof.
  intros Hin Hlen Hgt.
  induction instances as [|j rest IH]; [by apply elem_of_nil in Hin|].
  simpl. apply elem_of_cons in Hin as [<-|Hin].
  - rewrite decide_False by done. by rewrite Hgt.
  - rewrite IH by done.
    destruct (decide (len (hp j) = 0)); [done|].
    by destruct (gt_fiberwidth (hp j)).
Qed.

Lemma gathered_present hp instances :
  (∀ i, i ∈ instances → len (hp i) ≠ 0 → is_Some (gt_fiberwidth (hp i))) →
  ∃ fw, gathered hp instances = Ok fw.
Proof.
  induction instances as [|j rest IH]; intros Hf; [by eexists|].
  simpl. destruct IH as [fw Hfw].
  { intros i Hi. apply Hf. by right. }
  rewrite Hfw.
  destruct (decide (len (hp j) = 0)) as [|Hne]; [by eexists|].
  destruct (Hf j (list_elem_of_here _ _) Hne) as [g ->]. by eexists.
Qed.

Lemma gathered_ext hp hp' instances :
  (∀ i, i ∈ instances →
        len (hp' i) = len (hp i)
        ∧ (len (hp i) ≠ 0 → gt_fiberwidth (hp' i) = gt_fiberwidth (hp i))) →
  gathered hp' instances = gathered hp instances.
Proof.
  induction instances as [|j rest IH]; intros Hag; [done|].
  simpl. destruct (Hag j (list_elem_of_here _ _)) as [Hl Hg].
  rewrite Hl, IH by (intros i Hi; apply Hag; by right).
  destruct (decide (len (hp j) = 0)); [done|]. by rewrite Hg.
Qed.

(** With one ground-truth scalar per instance, the loop gathers
    one-dimensional tensors holding the concatenated ground truth. *)
Lemma gathered_concat w instances :
  (∀ i, i ∈ instances → len (heap w i) ≠ 0 →
        is_Some (gt_fiberwidth (heap w i))) →
  (∀ i t, i ∈ instances → gt_fiberwidth (heap w i) = Some t →
          numel t = len (heap w i) ∧ wf t) →
  ∃ fw, gathered (heap w) instances = Ok fw
        ∧ Forall (λ t, shape t = [size0 t]) fw
        ∧ concat (data <$> fw) = gt_concat w instances
        ∧ sum_list (size0 <$> fw) = sum_list (counts w instances).
Proof.
  induction instances as [|j rest IH]; intros Hf Hs.
  { by exists []. }
  destruct IH as (fw & Hfw & Hflat & Hdata & Hsum).
  { intros i Hi. apply Hf. by right. }
  { intros i t Hi. apply Hs. by right. }
  simpl. rewrite Hfw. unfold gt_concat, counts in *. simpl.
  destruct (decide (len (heap w j) = 0)) as [He|Hne].
  - exists fw. repeat split; try done.
    + rewrite Hdata. unfold gt_scalars.
      destruct (gt_fiberwidth (heap w j)) as [t|] eqn:Et; [|done].
      destruct (Hs j t (list_elem_of_here _ _) Et) as [Hn Hwf].
      unfold wf in Hwf. rewrite Hn, He in Hwf.
      by destruct (data t).
    + rewrite Hsum, He. done.
  - destruct (Hf j (list_elem_of_here _ _) Hne) as [g Hg]. rewrite Hg.
    destruct (Hs j g (list_elem_of_here _ _) Hg) as [Hn _].
    exists (view_flat g :: fw). simpl. repeat split.
    + by constructor.
    + unfold gt_scalars at 1. rewrite Hg. f_equal. exact Hdata.
    + unfold size0 at 1. simpl. rewrite Hn. f_equal. exact Hsum.
Qed.

Lemma cat_flat fw :
  fw ≠ [] → Forall (λ t, shape t = [size0 t]) fw →
  ∃ t, cat fw = Ok t
       ∧ data t = concat (data <$> fw)
       ∧ numel t = sum_list (size0 <$> fw).
Proof.
  intros Hne Hflat. destruct fw as [|t [|u fw]]; [done| |].
  - exists t. simpl. rewrite app_nil_r. split; [done|]. split; [done|].
    pose proof (Forall_inv Hflat) as Ht. simpl in Ht.
    unfold numel. rewrite Ht. unfold prod. simpl. lia.
  - unfold cat.
    pose proof (Forall_inv Hflat) as Ht. simpl in Ht. rewrite Ht.
    cbv beta iota.
    rewrite Forall_forall in Hflat.
    eexists. rewrite (proj2 (forallb_forall _ (t :: u :: fw))).
    2:{ intros v Hv. rewrite (Hflat v Hv). by apply bool_decide_eq_true. }
    split; [reflexivity|]. split; [done|].
    unfold numel, prod. simpl. lia.
Qed.

End LossFacts.

Section LossClaims.
Context {R : Type} `{!Scalar R}.
Implicit Types (w : World R) (pred : Tensor R) (instances : list loc).

(** C2: on a batch with at least one non-empty image, where every
    instance carries one ground-truth scalar and the (N, 1) predictions
    match the N instances, [fiberwidth_loss] returns the mean-squared
    error between the predictions and the ground-truth scalars
    concatenated in image order (within an image in instance order) and
    viewed as (N, 1); the world is left as it was. *)
Theorem loss_is_mse pred instances w N :
  shape pred = [N; 1] →
  (∃ i, i ∈ instances ∧ len (heap w i) ≠ 0) →
  (∀ i, i ∈ instances → len (heap w i) ≠ 0 →
        is_Some (gt_fiberwidth (heap w i))) →
  (∀ i t, i ∈ instances → gt_fiberwidth (heap w i) = Some t →
          numel t = len (heap w i) ∧ wf t) →
  sum_list (counts w instances) = N →
  run (fiberwidth_loss pred instances) w
  = (mse_loss pred (mkTensor [N; 1] (gt_concat w instances)), w)
  ∧ mse_loss pred (mkTensor [N; 1] (gt_concat w instances))
    = Ok (mkTensor [] [mse (data pred) (gt_concat w instances)]).
Proof.
  intros Hshape (i & Hi & Hlen) Hfield Hscalar Hsum.
  split; [|unfold mse_loss; by rewrite Hshape, decide_True by done].
  destruct (gathered_concat w instances Hfield Hscalar)
    as (fw & Hfw & Hflat & Hdata & Hsize).
  rewrite loss_run, Hfw.
  assert (Hne : fw ≠ []).
  { intros ->. apply gathered_all_empty in Hfw.
    unfold all_empty in Hfw. rewrite forallb_forall in Hfw.
    apply list_elem_of_In, Hfw, bool_decide_eq_true in Hi. done. }
  destruct (cat_flat fw Hne Hflat) as (t & Hcat & Hd & Hnum).
  destruct fw as [|t0 fw0]; [done|].
  unfold loss_of. rewrite Hcat, Hshape. cbn -[view mse_loss].
  unfold view. rewrite decide_True.
  - cbn -[mse_loss]. by rewrite Hd, Hdata.
  - rewrite Hnum, Hsize, Hsum. unfold prod. simpl. lia.
Qed.


(** C9: [fiberwidth_loss] needs the [gt_fiberwidth] field on non-empty
    images only: it raises an attribute error when some image with at
    least one instance lacks the field; when every such image has it, no
    attribute error is raised; and its result does not depend on the
    field (present or not) of images with zero instances. *)
Theorem loss_reads_gt_of_nonempty_only pred instances w :
  ((∃ i, i ∈ instances ∧ len (heap w i) ≠ 0
         ∧ gt_fiberwidth (heap w i) = None) →
   run (fiberwidth_loss pred instances) w = (Err AttributeError, w))
  ∧ ((∀ i, i ∈ instances → len (heap w i) ≠ 0 →
           is_Some (gt_fiberwidth (heap w i))) →
     (run (fiberwidth_loss pred instances) w).1 ≠ Err AttributeError)
  ∧ (∀ w', (∀ i, i ∈ instances →
                 len (heap w' i) = len (heap w i)
                 ∧ (len (heap w i) ≠ 0 →
                    gt_fiberwidth (heap w' i) = gt_fiberwidth (heap w i))) →
           (run (fiberwidth_loss pred instances) w').1
           = (run (fiberwidth_loss pred instances) w).1).
Proof.
  split; [|split].
  - intros (i & Hi & Hlen & Hgt).
    by rewrite loss_run, (gathered_missing _ _ i Hi Hlen Hgt).
  - intros Hfield. rewrite loss_run.
    destruct (gathered_present _ _ Hfield) as [fw ->].
    destruct fw as [|t fw]; [done|]. unfold loss_of.
    destruct (cat (t :: fw)) as [targets|e] eqn:Ecat.
    + cbn -[view mse_loss].
      destruct (shape pred) as [|N [|K [|? ?]]]; try done.
      unfold view, mse_loss.
      destruct (decide (prod [N; K] = numel targets)); [|done].
      cbn. by destruct (decide _).
    + unfold cat in Ecat.
      destruct fw; [done|]. destruct (shape t); [by injection Ecat as <-|].
      destruct (forallb _ _); [done|]. by injection Ecat as <-.
  - intros w' Hag. rewrite !loss_run, (gathered_ext _ _ _ Hag).
    by destruct (gathered (heap w) instances) as [[|? ?]|?].
Qed.

(** C10: [fiberwidth_loss] never writes to the instance containers;
    when every image is empty it changes the skip counter and the event
    storage (one skipped batch), and otherwise it changes nothing. *)
Theorem loss_frame pred instances w :
  heap (run (fiberwidth_loss pred instances) w).2 = heap w
  ∧ (run (fiberwidth_loss pred instances) w).2
    = if all_empty w instances then skipped_once w else w.
Proof.
  rewrite loss_run.
  destruct (all_empty w instances) eqn:Ea.
  - apply gathered_all_empty in Ea. by rewrite Ea.
  - destruct (gathered (heap w) instances) as [[|t fw]|e] eqn:Eg; [|done..].
    apply gathered_all_empty in Eg. congruence.
Qed.

End LossClaims.

(** ** Inference *)

Section InferenceFacts.
Context {R : Type} `{!Scalar R}.
Implicit Types (w : World R) (pred : Tensor R) (pred_instances : list loc).

Lemma lens_run pred_instances w :
  run (lens pred_instances) w = (Ok (counts w pred_instances), w).
Proof.
  induction pred_instances as [|i rest IH]; [done|].
  simpl. unfold M_bind. simpl. by rewrite IH.
Qed.

Lemma split_data_lookup row sizes : ∀ (d : list R) k n,
  sizes !! k = Some n →
  split_data row sizes d !! k
  = Some (take (n * row) (drop (sum_list (take k sizes) * row) d)).
Proof.
  induction sizes as [|m sizes IH]; intros d k n Hk; [done|].
  destruct k as [|k]; simpl in *.
  - by injection Hk as ->.
  - rewrite (IH _ _ _ Hk), drop_drop. do 3 f_equal. lia.
Qed.

Lemma split_data_length row sizes : ∀ (d : list R),
  length (split_data row sizes d) = length sizes.
Proof. induction sizes as [|m sizes IH]; intros d; simpl; by f_equal. Qed.

(** The chunks of a successful [split] are the row ranges given by the
    running sums of the sizes. *)
Lemma split_lookup pred sizes chunks k n :
  split pred sizes = Ok chunks → sizes !! k = Some n →
  chunks !! k = Some (rows pred (sum_list (take k sizes)) n).
Proof.
  unfold split, rows. destruct (shape pred) as [|N tl]; [done|].
  destruct (decide _); [|done]. intros [= <-] Hk.
  rewrite lookup_zip_with, Hk. simpl.
  by rewrite (split_data_lookup _ _ _ _ _ Hk).
Qed.

Lemma split_length pred sizes chunks :
  split pred sizes = Ok chunks → length chunks = length sizes.
Proof.
  unfold split. destruct (shape pred) as [|N tl]; [done|].
  destruct (decide _); [|done]. intros [= <-].
  rewrite length_zip_with, split_data_length. lia.
Qed.

(** The attaching loop, on results that are as long as their
    containers: every container keeps its length and ground truth, the
    containers outside the list are untouched, and a container holds the
    result paired with its last occurrence in the list. *)
Lemma attach_run pred_instances : ∀ results w,
  Forall2 (λ t i, size0 t = len (heap w i) ∧ shape t ≠ [])
          results pred_instances →
  ∃ w', run (attach results pred_instances) w = (Ok (), w')
    ∧ _TOTAL_SKIPPED w' = _TOTAL_SKIPPED w
    ∧ event_storage w' = event_storage w
    ∧ (∀ l, len (heap w' l) = len (heap w l)
            ∧ gt_fiberwidth (heap w' l) = gt_fiberwidth (heap w l))
    ∧ (∀ l, l ∉ pred_instances → heap w' l = heap w l)
    ∧ (∀ k i t, pred_instances !! k = Some i → results !! k = Some t →
                (∀ k', k < k' → pred_instances !! k' ≠ Some i) →
                pred_fiberwidth (heap w' i) = Some t).
Proof.
  induction pred_instances as [|i rest IH]; intros results w Hall.
  { apply Forall2_nil_inv_r in Hall as ->. exists w. by repeat split. }
  apply Forall2_cons_inv_r in Hall as (t & results' & [Hsz Hdim] & Hall & ->).
  set (w1 := mkWorld (<[i := mkInstances (len (heap w i))
                              (gt_fiberwidth (heap w i)) (Some t)]> (heap w))
                     (_TOTAL_SKIPPED w) (event_storage w)).
  assert (Hlen1 : ∀ l, len (heap w1 l) = len (heap w l)
                       ∧ gt_fiberwidth (heap w1 l) = gt_fiberwidth (heap w l)).
  { intros l. simpl. destruct (decide (i = l)) as [<-|Hne].
    - by rewrite fn_lookup_insert.
    - by rewrite fn_lookup_insert_ne. }
  destruct (IH results' w1) as (w' & Hrun & Hc & He & Hl & Hout & Hin).
  { eapply Forall2_impl; [|exact Hall]. intros u l [Hu Hd].
    split; [|done]. rewrite Hu. symmetry. apply Hlen1. }
  exists w'. split.
  { simpl. unfold M_bind. cbn [run setattr_pred_fiberwidth].
    unfold size0 in Hsz. destruct (shape t) as [|n tl]; [done|].
    simpl in Hsz. rewrite decide_True by done. exact Hrun. }
  split; [done|]. split; [done|]. split; [|split].
  - intros l. destruct (Hl l) as [-> ->]. apply Hlen1.
  - intros l Hl'. apply not_elem_of_cons in Hl' as [Hne Hl'].
    rewrite (Hout l Hl'). simpl. by rewrite fn_lookup_insert_ne.
  - intros k j u Hk Hu Hlast. destruct k as [|k]; simpl in *.
    + injection Hk as ->. injection Hu as ->.
      rewrite Hout; [simpl; by rewrite fn_lookup_insert|].
      intros Hj. apply list_elem_of_lookup in Hj as [k' Hk'].
      by apply (Hlast (S k')); [lia|].
    + apply (Hin k j u Hk Hu). intros k' Hlt.
      apply (Hlast (S k')). lia.
Qed.

Lemma counts_lookup w pred_instances k i :
  pred_instances !! k = Some i →
  counts w pred_instances !! k = Some (len (heap w i)).
Proof. intros Hk. unfold counts. by rewrite list_lookup_fmap, Hk. Qed.

End InferenceFacts.

Section InferenceClaims.
Context {R : Type} `{!Scalar R}.
Implicit Types (w : World R) (pred : Tensor R) (pred_instances : list loc).

(** C5: for (N, 1) predictions and a list of containers whose instance
    counts sum to N, [fiberwidth_inference] succeeds and leaves in
    container [k] the field [pred_fiberwidth] holding chunk [k]: the
    [len] rows of the predictions that start at the sum of the counts of
    the images before it (a container listed more than once keeps the
    chunk of its last occurrence); lengths, ground truth, other
    containers, the skip counter and the event storage are unchanged. *)
Theorem inference_attaches_chunks pred pred_instances w N :
  shape pred = [N; 1] →
  sum_list (counts w pred_instances) = N →
  ∃ w', run (fiberwidth_inference pred pred_instances) w = (Ok (), w')
    ∧ _TOTAL_SKIPPED w' = _TOTAL_SKIPPED w
    ∧ event_storage w' = event_storage w
    ∧ (∀ l, len (heap w' l) = len (heap w l)
            ∧ gt_fiberwidth (heap w' l) = gt_fiberwidth (heap w l))
    ∧ (∀ l, l ∉ pred_instances → heap w' l = heap w l)
    ∧ (∀ k i, pred_instances !! k = Some i →
              (∀ k', k < k' → pred_instances !! k' ≠ Some i) →
              pred_fiberwidth (heap w' i)
              = Some (rows pred (sum_list (take k (counts w pred_instances)))
                           (len (heap w i)))).
Proof.
  intros Hshape Hsum.
  destruct (split pred (counts w pred_instances)) as [chunks|e] eqn:Es.
  2:{ unfold split in Es. rewrite Hshape, decide_True in Es; done. }
  pose proof (split_length _ _ _ Es) as Hlen.
  destruct (attach_run pred_instances chunks w)
    as (w' & Hrun & Hc & He & Hl & Hout & Hin).
  { apply Forall2_same_length_lookup_2.
    - rewrite Hlen. unfold counts. by rewrite length_fmap.
    - intros k t i Ht Hi.
      rewrite (split_lookup _ _ _ _ _ Es (counts_lookup w _ _ _ Hi)) in Ht.
      injection Ht as <-. done. }
  exists w'. split.
  { unfold fiberwidth_inference, detach, mbind, M_bind. cbn [run].
    rewrite lens_run. cbn [run lift]. rewrite Es. exact Hrun. }
  repeat split; try done; try apply Hl.
  intros k i Hk Hlast.
  apply (Hin k i _ Hk); [|done].
  apply (split_lookup _ _ _ _ _ Es (counts_lookup w _ _ _ Hk)).
Qed.

(** C6: when the instance counts of the containers do not sum to the
    batch dimension N of the predictions, [fiberwidth_inference] raises
    a runtime error and attaches nothing: the world is unchanged. *)
Theorem inference_count_mismatch_raises pred pred_instances w N tl :
  shape pred = N :: tl →
  sum_list (counts w pred_instances) ≠ N →
  run (fiberwidth_inference pred pred_instances) w = (Err RuntimeError, w).
Proof.
  intros Hshape Hsum.
  unfold fiberwidth_inference, detach, mbind, M_bind. cbn [run].
  rewrite lens_run. cbn [run lift]. unfold split.
  by rewrite Hshape, decide_False.
Qed.

End InferenceClaims.

(** ** The properties at concrete inputs *)

Lemma loss_is_mse_witness :
  run (fiberwidth_loss Ex.pred [0; 1; 2]) Ex.w
  = (Ok (mkTensor [] [891%Z]), Ex.w).
Proof.
  destruct (loss_is_mse Ex.pred [0; 1; 2] Ex.w 5) as [Hrun Hmse].
  - reflexivity.
  - exists 0. split; [by left|done].
  - intros i Hi Hlen.
    repeat (apply elem_of_cons in Hi as [->|Hi]); try done.
    by apply elem_of_nil in Hi.
  - intros i t Hi Hgt.
    repeat (apply elem_of_cons in Hi as [->|Hi]); try done.
    + by injection Hgt as <-.
    + by injection Hgt as <-.
    + by apply elem_of_nil in Hi.
  - reflexivity.
  - rewrite Hrun, Hmse. reflexivity.
Defined.


Lemma inference_attaches_chunks_witness :
  ∃ w', run (fiberwidth_inference Ex.pred [0; 1; 2]) Ex.w = (Ok (), w')
    ∧ pred_fiberwidth (heap w' 0) = Some (mkTensor [2; 1] [1; 2]%Z)
    ∧ pred_fiberwidth (heap w' 1) = Some (mkTensor [0; 1] [])
    ∧ pred_fiberwidth (heap w' 2) = Some (mkTensor [3; 1] [3; 4; 5]%Z).
Proof.
  destruct (inference_attaches_chunks Ex.pred [0; 1; 2] Ex.w 5 eq_refl eq_refl)
    as (w' & Hrun & _ & _ & _ & _ & Hchunk).
  exists w'. split; [exact Hrun|].
  split; [|split].
  - apply (Hchunk 0 0 eq_refl).
    intros [|[|[|k']]] Hlt; simpl; done || lia.
  - apply (Hchunk 1 1 eq_refl).
    intros [|[|[|k']]] Hlt; simpl; done || lia.
  - apply (Hchunk 2 2 eq_refl).
    intros [|[|[|k']]] Hlt; simpl; done || lia.
Defined.

Lemma inference_count_mismatch_raises_witness :
  run (fiberwidth_inference Ex.pred [0; 1]) Ex.w = (Err RuntimeError, Ex.w).
Proof.
  apply (inference_count_mismatch_raises Ex.pred [0; 1] Ex.w 5 [1] eq_refl).
  simpl. lia.
Defined.

(** The skip path and the attribute error of [fiberwidth_loss], run. *)
Lemma loss_attribute_error_example :
  run (fiberwidth_loss Ex.pred [0; 1; 4]) Ex.w = (Err AttributeError, Ex.w).
Proof. reflexivity. Qed.

(** ** More on the head *)

Section HeadMoreClaims.
Context {R : Type} `{!Scalar R}.
Implicit Types (get_norm : string → nat → Result (option (NormModule R)))
  (cfg : ROI_FIBERWIDTH_HEAD) (s : ShapeSpec) (θ : Params R)
  (h : FiberWidthHeadFC R) (x y : Tensor R).


(** X2: for sizes that are all at least one, a flattened feature size
    below 2^63 and conv layers without norm module, [forward] on an input
    of the construction-time shape returns a tensor of shape (N, 1) when
    there is a hidden fully-connected layer or the flattened conv output
    has [fc_dim] elements, and raises a runtime error otherwise. *)
Theorem forward_succeeds_iff get_norm cfg s θ h x N :
  __init__ get_norm cfg s θ = Ok h →
  shape x = [N; channels s; height s; width s] →
  positive_sizes cfg s →
  (Z.of_nat (flat_size cfg s) < 2 ^ 63)%Z →
  ((0 < NUM_CONV cfg)%Z → get_norm (NORM cfg) (CONV_DIM cfg) = Ok None) →
  match forward h x with
  | Ok y => shape y = [N; 1]
            ∧ ((NUM_FC cfg ≤ 0)%Z → flat_size cfg s = FC_DIM cfg)
  | Err e => e = RuntimeError
             ∧ (NUM_FC cfg ≤ 0)%Z ∧ flat_size cfg s ≠ FC_DIM cfg
  end.
Proof.
  intros Hinit Hx (Hc & Hh & Hw & Hcd & Hfd) Hfit _.
  pose proof (forward_cases get_norm cfg θ s h x N Hinit Hx) as Hcases.
  cbv zeta in Hcases.
  rewrite decide_False in Hcases by (intros [_ Hn]; by apply Hn).
  rewrite first_in_features_fits, Nat2Z.id in Hcases by done.
  destruct (decide (NUM_FC cfg ≤ 0)%Z) as [Hle|Hgt].
  - destruct (decide (flat_size cfg s = FC_DIM cfg)) as [Heq|Hne].
    + by destruct Hcases as (y & -> & Hy).
    + by rewrite Hcases.
  - rewrite decide_True in Hcases by done.
    destruct Hcases as (y & -> & Hy). split; [done|]. lia.
Qed.

(** X4: a head without conv layers flattens by itself: on an input of
    more than two dimensions [forward] gives what it gives on the same data
    already flattened to (N, rest). *)
Theorem forward_without_conv_flattens get_norm cfg s θ h n rest d :
  __init__ get_norm cfg s θ = Ok h →
  (NUM_CONV cfg ≤ 0)%Z →
  2 ≤ length rest →
  forward h (mkTensor (n :: rest) d) = forward h (mkTensor [n; prod rest] d).
Proof.
  intros Hinit Hconv Hrest.
  destruct (init_inv get_norm cfg θ s h Hinit)
    as (pre & _ & _ & Hcl & Hfcs & _).
  assert (Hnil : conv_norm_relus h = []).
  { destruct (conv_norm_relus h); [done|]. simpl in Hcl. lia. }
  unfold forward. rewrite Hnil. cbn [run_layers].
  cbn [mbind Result_bind rbind].
  destruct (decide (length _ ≠ 0)) as [_|Hn].
  2:{ rewrite Hfcs, length_app in Hn. simpl in Hn. lia. }
  unfold dim. cbn [shape length].
  rewrite decide_True by lia. rewrite decide_False by lia.
  done.
Qed.



End HeadMoreClaims.

(** ** More on the loss *)

Section LossMore.
Context {R : Type} `{!Scalar R}.
Implicit Types (w : World R) (hp : loc → Instances R)
  (pred : Tensor R) (instances : list loc) (fw : list (Tensor R)).

Lemma gathered_filter hp instances :
  gathered hp (filter (λ i, len (hp i) ≠ 0) instances) = gathered hp instances.
Proof.
  induction instances as [|i rest IH]; [done|].
  rewrite filter_cons. cbn [gathered].
  destruct (decide (len (hp i) ≠ 0)) as [Hne|He].
  - cbn [gathered]. rewrite !decide_False by done. by rewrite IH.
  - rewrite decide_True; [done|]. by destruct (decide (len (hp i) = 0)).
Qed.

Lemma gathered_nonempty w instances :
  (∀ i, i ∈ instances → len (heap w i) ≠ 0 →
        is_Some (gt_fiberwidth (heap w i))) →
  ∃ fw, gathered (heap w) instances = Ok fw
        ∧ Forall (λ t, shape t = [size0 t]) fw
        ∧ concat (data <$> fw)
          = concat ((λ i, gt_scalars (heap w i)) <$> nonempty w instances)
        ∧ sum_list (size0 <$> fw)
          = sum_list ((λ i, gt_numel (heap w i)) <$> nonempty w instances)
        ∧ (fw = [] ↔ nonempty w instances = []).
Proof.
  induction instances as [|j rest IH]; intros Hf.
  { by exists []. }
  destruct IH as (fw & Hfw & Hflat & Hdata & Hsum & Hnil).
  { intros i Hi. apply Hf. by right. }
  unfold nonempty in *. rewrite filter_cons. simpl. rewrite Hfw.
  destruct (decide (len (heap w j) ≠ 0)) as [Hne|He].
  - rewrite decide_False by done.
    destruct (Hf j (list_elem_of_here _ _) Hne) as [g Hg]. rewrite Hg.
    exists (view_flat g :: fw). simpl. repeat split; try done.
    + by constructor.
    + unfold gt_scalars at 1. rewrite Hg. f_equal. exact Hdata.
    + unfold gt_numel at 1, size0 at 1. rewrite Hg. simpl. f_equal.
      exact Hsum.
  - rewrite decide_True by (by destruct (decide (len (heap w j) = 0))).
    by exists fw.
Qed.

Lemma loss_final_world pred instances w :
  (run (fiberwidth_loss pred instances) w).2
  = if all_empty w instances then skipped_once w else w.
Proof.
  rewrite loss_run.
  destruct (all_empty w instances) eqn:Ea.
  - apply gathered_all_empty in Ea. by rewrite Ea.
  - destruct (gathered (heap w) instances) as [[|t fw]|e] eqn:Eg; [|done..].
    apply gathered_all_empty in Eg. congruence.
Qed.

(** X6: on a batch with at least one non-empty image, each non-empty image
    carrying its ground truth, [fiberwidth_loss] leaves the world as it is
    and returns: a value error when the predictions are not two-dimensional;
    a runtime error when their (N, K) shape does not hold as many elements
    as the ground truth of the non-empty images states; otherwise the
    mean-squared error against that ground truth, concatenated in image
    order. *)
Theorem loss_on_nonempty_batch pred instances w :
  nonempty w instances ≠ [] →
  (∀ i, i ∈ instances → len (heap w i) ≠ 0 →
        is_Some (gt_fiberwidth (heap w i))) →
  run (fiberwidth_loss pred instances) w
  = (match shape pred with
     | [N; K] =>
         if decide (N * K
                    = sum_list ((λ i, gt_numel (heap w i))
                                  <$> nonempty w instances))
         then Ok (mkTensor [] [mse (data pred)
                    (concat ((λ i, gt_scalars (heap w i))
                               <$> nonempty w instances))])
         else Err RuntimeError
     | _ => Err ValueError
     end, w).
Proof.
  intros Hne Hfield.
  destruct (gathered_nonempty w instances Hfield)
    as (fw & Hfw & Hflat & Hdata & Hsum & Hnil).
  rewrite loss_run, Hfw.
  assert (Hfw' : fw ≠ []) by (intros E; by apply Hne, Hnil).
  destruct (cat_flat fw Hfw' Hflat) as (t & Hcat & Hd & Hnum).
  destruct fw as [|t0 fw0]; [done|].
  unfold loss_of. rewrite Hcat. cbn -[view mse_loss].
  destruct (shape pred) as [|N [|K [|? ?]]] eqn:Es; try done.
  unfold view. rewrite Hnum, Hsum.
  replace (prod [N; K]) with (N * K) by (unfold prod; simpl; lia).
  destruct (decide _) as [Heq|]; [|done].
  cbn -[mse_loss]. unfold mse_loss. rewrite Es, decide_True by done.
  simpl. by rewrite Hd, Hdata.
Qed.

(** X7: images with zero instances do not count: dropping them from the
    batch changes neither what [fiberwidth_loss] returns nor what it does
    to the world. *)
Theorem loss_ignores_empty_images pred instances w :
  run (fiberwidth_loss pred (nonempty w instances)) w
  = run (fiberwidth_loss pred instances) w.
Proof. rewrite !loss_run. unfold nonempty. by rewrite gathered_filter. Qed.

(** X8: over any sequence of [fiberwidth_loss] calls the instance
    containers stay as they are, the skip counter ends at its first value
    plus the number of batches with only empty images, and the event
    storage has received exactly the consecutive counter values of those
    batches, in order. *)
Theorem losses_count_skipped_batches
    (batches : list (Tensor R * list loc)) w :
  heap (after_losses w batches) = heap w
  ∧ _TOTAL_SKIPPED (after_losses w batches)
    = (_TOTAL_SKIPPED w + Z.of_nat (skipped_batches w batches))%Z
  ∧ event_storage (after_losses w batches)
    = event_storage w
      ++ ((λ j, skip_event (_TOTAL_SKIPPED w + 1 + Z.of_nat j))
            <$> seq 0 (skipped_batches w batches)).
Proof.
  revert w. induction batches as [|[pred instances] rest IH]; intros w.
  { unfold after_losses, skipped_batches. simpl.
    split; [done|]. split; [lia|by rewrite app_nil_r]. }
  unfold after_losses in *. cbn [foldl fst snd].
  rewrite loss_final_world.
  unfold skipped_batches in *. rewrite filter_cons. cbn [snd].
  assert (Hsame : ∀ w', heap w' = heap w →
            filter (λ b : Tensor R * list loc, all_empty w' b.2 = true) rest
            = filter (λ b, all_empty w b.2 = true) rest).
  { intros w' Hh. unfold all_empty. by rewrite Hh. }
  destruct (all_empty w instances) eqn:Ea.
  - destruct (IH (skipped_once w)) as (Hh & Hc & He).
    rewrite (Hsame (skipped_once w) eq_refl) in Hc, He.
    rewrite decide_True by done.
    split; [exact Hh|]. split.
    + rewrite Hc. simpl. lia.
    + rewrite He. simpl. rewrite <- app_assoc. f_equal. simpl.
      rewrite Z.add_0_r. f_equal. rewrite <- fmap_S_seq, <- list_fmap_compose.
      apply Forall_fmap_ext, Forall_seq. intros j Hj. simpl.
      f_equal. lia.
  - destruct (IH w) as (Hh & Hc & He).
    rewrite decide_False by done. done.
Qed.


End LossMore.

(** ** More on inference *)

Section InferenceMore.
Context {R : Type} `{!Scalar R}.
Implicit Types (w : World R) (pred : Tensor R) (pred_instances : list loc).

(** What a successful [fiberwidth_inference] has done. *)
Lemma inference_ok_inv pred pred_instances w w' :
  run (fiberwidth_inference pred pred_instances) w = (Ok (), w') →
  shape pred = sum_list (counts w pred_instances) :: tail (shape pred)
  ∧ _TOTAL_SKIPPED w' = _TOTAL_SKIPPED w
  ∧ event_storage w' = event_storage w
  ∧ (∀ l, len (heap w' l) = len (heap w l)
          ∧ gt_fiberwidth (heap w' l) = gt_fiberwidth (heap w l))
  ∧ (∀ l, l ∉ pred_instances → heap w' l = heap w l)
  ∧ (∀ k i, pred_instances !! k = Some i →
            (∀ k', k < k' → pred_instances !! k' ≠ Some i) →
            pred_fiberwidth (heap w' i)
            = Some (rows pred (sum_list (take k (counts w pred_instances)))
                         (len (heap w i)))).
Proof.
  unfold fiberwidth_inference, detach, mbind, M_bind. cbn [run].
  rewrite lens_run. cbn [run lift].
  destruct (split pred (counts w pred_instances)) as [chunks|e] eqn:Es;
    [|done].
  intros Hrun.
  pose proof (split_length _ _ _ Es) as Hlen.
  destruct (attach_run pred_instances chunks w)
    as (w'' & Hrun' & Hc & He & Hl & Hout & Hin).
  { apply Forall2_same_length_lookup_2.
    - rewrite Hlen. unfold counts. by rewrite length_fmap.
    - intros k t i Ht Hi.
      rewrite (split_lookup _ _ _ _ _ Es (counts_lookup w _ _ _ Hi)) in Ht.
      injection Ht as <-. done. }
  rewrite Hrun' in Hrun. injection Hrun as <-.
  split.
  { unfold split in Es. destruct (shape pred) as [|N tl]; [done|].
    destruct (decide _) as [->|]; done. }
  repeat split; try done; try apply Hl.
  intros k i Hk Hlast.
  apply (Hin k i _ Hk); [|done].
  apply (split_lookup _ _ _ _ _ Es (counts_lookup w _ _ _ Hk)).
Qed.

Lemma last_occurrence (l : list loc) (i : loc) :
  i ∈ l → ∃ k, l !! k = Some i ∧ ∀ k', k < k' → l !! k' ≠ Some i.
Proof.
  induction l as [|j l IH]; intros Hi; [by apply elem_of_nil in Hi|].
  destruct (decide (i ∈ l)) as [Hin|Hout].
  - destruct (IH Hin) as (k & Hk & Hlast). exists (S k). split; [done|].
    intros [|k'] Hlt; [lia|]. simpl. apply Hlast. lia.
  - apply elem_of_cons in Hi as [->|Hi]; [|done].
    exists 0. split; [done|]. intros [|k'] Hlt; [lia|]. simpl.
    intros Hk'. apply Hout. by apply list_elem_of_lookup; exists k'.
Qed.

Lemma sum_take_le (sizes : list nat) k n :
  sizes !! k = Some n → sum_list (take k sizes) + n ≤ sum_list sizes.
Proof.
  revert k. induction sizes as [|m sizes IH]; intros k Hk; [done|].
  destruct k as [|k]; simpl in *.
  - injection Hk as ->. lia.
  - specialize (IH k Hk). lia.
Qed.

Lemma split_data_concat row sizes : ∀ (d : list R),
  concat (split_data row sizes d) = take (sum_list sizes * row) d.
Proof.
  induction sizes as [|m sizes IH]; intros d; simpl.
  - by rewrite take_0.
  - rewrite IH, take_take_drop. f_equal. lia.
Qed.

Lemma Instances_eq (a b : Instances R) :
  len a = len b → gt_fiberwidth a = gt_fiberwidth b →
  pred_fiberwidth a = pred_fiberwidth b → a = b.
Proof. destruct a, b. simpl. by intros -> -> ->. Qed.

(** X11: after a successful [fiberwidth_inference] on predictions of
    shape (N, 1), every listed container has a [pred_fiberwidth] field of
    shape (#instances, 1), holding that many scalars when the predictions
    hold N. *)
Theorem inference_field_shape pred pred_instances w w' N i :
  run (fiberwidth_inference pred pred_instances) w = (Ok (), w') →
  shape pred = [N; 1] →
  i ∈ pred_instances →
  ∃ t, pred_fiberwidth (heap w' i) = Some t
       ∧ shape t = [len (heap w i); 1]
       ∧ (wf pred → wf t).
Proof.
  intros Hrun Hshape Hi.
  destruct (inference_ok_inv _ _ _ _ Hrun) as (Hs & _ & _ & _ & _ & Hchunk).
  destruct (last_occurrence _ _ Hi) as (k & Hk & Hlast).
  rewrite (Hchunk k i Hk Hlast). eexists. split; [done|].
  unfold rows. rewrite Hshape. simpl. split; [done|].
  unfold wf, numel. rewrite Hshape. simpl.
  rewrite Hshape in Hs. injection Hs as HN.
  intros Hwf. rewrite length_take, length_drop, Hwf.
  pose proof (sum_take_le _ _ _ (counts_lookup w _ _ _ Hk)). lia.
Qed.

(** X12: the attached chunks partition the predictions: for distinct
    containers and well-formed predictions, the scalars attached by a
    successful [fiberwidth_inference], read back in image order, are the
    predictions. *)
Theorem inference_chunks_partition pred pred_instances w w' :
  run (fiberwidth_inference pred pred_instances) w = (Ok (), w') →
  NoDup pred_instances →
  wf pred →
  concat ((λ i, pred_scalars (heap w' i)) <$> pred_instances) = data pred.
Proof.
  intros Hrun Hnd Hwf.
  destruct (inference_ok_inv _ _ _ _ Hrun) as (Hs & _ & _ & _ & _ & Hchunk).
  set (row := prod (tail (shape pred))).
  assert (Hsplit : (λ i, pred_scalars (heap w' i)) <$> pred_instances
                   = split_data row (counts w pred_instances) (data pred)).
  { apply list_eq. intros k. rewrite list_lookup_fmap.
    destruct (pred_instances !! k) as [i|] eqn:Hk; simpl.
    - rewrite (split_data_lookup _ _ _ _ _ (counts_lookup w _ _ _ Hk)).
      unfold pred_scalars. rewrite (Hchunk k i Hk); [done|].
      intros k' Hlt Hk'.
      pose proof (NoDup_lookup _ _ _ _ Hnd Hk Hk'). lia.
    - symmetry. apply lookup_ge_None.
      rewrite split_data_length. unfold counts. rewrite length_fmap.
      by apply lookup_ge_None. }
  rewrite Hsplit, split_data_concat. apply take_ge.
  unfold wf, numel in Hwf. rewrite Hwf, Hs. simpl. fold row. lia.
Qed.

(** X13: [fiberwidth_inference] is idempotent: run again on the world it
    has produced, with the same predictions and containers, it succeeds and
    changes no container, nor the counter, nor the event storage. *)
Theorem inference_idempotent pred pred_instances w w' :
  run (fiberwidth_inference pred pred_instances) w = (Ok (), w') →
  ∃ w'', run (fiberwidth_inference pred pred_instances) w' = (Ok (), w'')
    ∧ (∀ l, heap w'' l = heap w' l)
    ∧ _TOTAL_SKIPPED w'' = _TOTAL_SKIPPED w'
    ∧ event_storage w'' = event_storage w'.
Proof.
  intros Hrun.
  destruct (inference_ok_inv _ _ _ _ Hrun)
    as (Hs & _ & _ & Hl & Hout & Hchunk).
  assert (Hcounts : counts w' pred_instances = counts w pred_instances).
  { unfold counts. apply Forall_fmap_ext, Forall_forall. intros l _.
    apply Hl. }
  destruct (run (fiberwidth_inference pred pred_instances) w')
    as [[[]|e] w''] eqn:Hrun'.
  - destruct (inference_ok_inv _ _ _ _ Hrun')
      as (_ & Hc' & He' & Hl' & Hout' & Hchunk').
    exists w''. split; [done|]. split; [|done].
    intros l. destruct (decide (l ∈ pred_instances)) as [Hin|Hnin].
    + destruct (last_occurrence _ _ Hin) as (k & Hk & Hlast).
      apply Instances_eq; try apply Hl'.
      rewrite (Hchunk' k l Hk Hlast), (Hchunk k l Hk Hlast), Hcounts.
      by destruct (Hl l) as [-> _].
    + by apply Hout'.
  - exfalso. revert Hrun'.
    unfold fiberwidth_inference, detach, mbind, M_bind. cbn [run].
    rewrite lens_run. cbn [run lift]. rewrite Hcounts.
    unfold split. rewrite Hs. rewrite decide_True by done.
    destruct (attach_run pred_instances
                (zip_with (λ k d, mkTensor (k :: tail (shape pred)) d)
                   (counts w pred_instances)
                   (split_data (prod (tail (shape pred)))
                      (counts w pred_instances) (data pred))) w')
      as (w3 & Hrun3 & _).
    { apply Forall2_same_length_lookup_2.
      - rewrite length_zip_with, split_data_length. unfold counts.
        rewrite length_fmap. lia.
      - intros k t i Ht Hi.
        rewrite lookup_zip_with in Ht.
        rewrite (counts_lookup w _ _ _ Hi) in Ht. simpl in Ht.
        rewrite (split_data_lookup _ _ _ _ _ (counts_lookup w _ _ _ Hi)) in Ht.
        injection Ht as <-. simpl. split; [|done].
        unfold size0. simpl. symmetry. apply Hl. }
    by rewrite Hrun3.
Qed.

(** X10: the loss does not see what inference attaches: after a
    successful [fiberwidth_inference] (on any predictions and containers),
    [fiberwidth_loss] returns what it returned before. *)
Theorem loss_unchanged_by_inference pred_inf pred_instances pred instances
    w w' :
  run (fiberwidth_inference pred_inf pred_instances) w = (Ok (), w') →
  (run (fiberwidth_loss pred instances) w').1
  = (run (fiberwidth_loss pred instances) w).1.
Proof.
  intros Hrun.
  destruct (inference_ok_inv _ _ _ _ Hrun) as (_ & _ & _ & Hl & _).
  rewrite !loss_run.
  rewrite (gathered_ext (heap w) (heap w') instances).
  - by destruct (gathered (heap w) instances) as [[|? ?]|?].
  - intros i _. destruct (Hl i) as [Hlen Hgt]. split; [done|]. by intros _.
Qed.

End InferenceMore.

(** ** The registry *)

Section RegistryFacts.
Context {R : Type} `{!Scalar R}.
Variable get_norm : string → nat → Result (option (NormModule R)).


End RegistryFacts.

(** ** The further properties at concrete inputs *)


Lemma forward_succeeds_iff_witness :
  ∃ h, __init__ Ex.get_norm Ex.cfg_conv_fc Ex.input_shape Ex.θ = Ok h
       ∧ match forward h Ex.x with
         | Ok y => shape y = [2; 1]
         | Err _ => False
         end.
Proof.
  eexists. split; [reflexivity|].
  assert (Hpos : positive_sizes Ex.cfg_conv_fc Ex.input_shape).
  { unfold positive_sizes. simpl. lia. }
  pose proof (forward_succeeds_iff Ex.get_norm Ex.cfg_conv_fc Ex.input_shape
                Ex.θ _ Ex.x 2 eq_refl eq_refl Hpos eq_refl
                (λ _, eq_refl)) as Hf.
  destruct (forward _ Ex.x) as [y|e].
  - exact (proj1 Hf).
  - destruct Hf as (_ & Hn & _). simpl in Hn. lia.
Defined.

Lemma forward_shape_hidden_fc_witness :
  ∃ h, __init__ Ex.get_norm Ex.cfg_conv_fc Ex.input_shape Ex.θ = Ok h
       ∧ ∃ y, forward h Ex.x = Ok y ∧ shape y = [2; 1].
Proof.
  eexists. split; [reflexivity|].
  apply (forward_shape_hidden_fc Ex.get_norm Ex.cfg_conv_fc Ex.input_shape
           Ex.θ _ Ex.x 2 eq_refl eq_refl).
  - simpl. lia.
  - unfold positive_sizes. simpl. lia.
  - reflexivity.
  - intros _. reflexivity.
Defined.

Lemma forward_without_conv_flattens_witness :
  ∃ h, __init__ Ex.get_norm Ex2.cfg_fc_only Ex.input_shape Ex.θ = Ok h
       ∧ forward h Ex.x = forward h (mkTensor [2; 4] (data Ex.x)).
Proof.
  eexists. split; [reflexivity|].
  apply (forward_without_conv_flattens Ex.get_norm Ex2.cfg_fc_only
           Ex.input_shape Ex.θ _ 2 [1; 2; 2] (data Ex.x) eq_refl).
  - simpl. lia.
  - simpl. lia.
Defined.


(** The registry at a registered and at an unregistered name. *)
Lemma build_fiberwidth_head_examples :
  ∃ reg, ROI_FIBERWIDTH_HEAD_REGISTRY Ex.get_norm = Ok reg
    ∧ build_fiberwidth_head reg Ex2.named Ex.input_shape Ex.θ
      = __init__ Ex.get_norm Ex.cfg_conv_fc Ex.input_shape Ex.θ
    ∧ build_fiberwidth_head reg Ex2.misnamed Ex.input_shape Ex.θ
      = Err KeyError.
Proof.
  eexists. split; [reflexivity|]. split; reflexivity.
Qed.


Lemma loss_on_nonempty_batch_witness :
  run (fiberwidth_loss Ex.pred [0; 1; 2]) Ex.w
  = (Ok (mkTensor [] [891%Z]), Ex.w)
  ∧ run (fiberwidth_loss Ex2.pred4 [0; 1; 2]) Ex.w
    = (Err RuntimeError, Ex.w).
Proof.
  assert (Hfield : ∀ i, i ∈ [0; 1; 2] → len (heap Ex.w i) ≠ 0 →
                        is_Some (gt_fiberwidth (heap Ex.w i))).
  { intros i Hi Hlen.
    repeat (apply elem_of_cons in Hi as [->|Hi]); try done.
    by apply elem_of_nil in Hi. }
  split.
  - by rewrite (loss_on_nonempty_batch Ex.pred [0; 1; 2] Ex.w).
  - by rewrite (loss_on_nonempty_batch Ex2.pred4 [0; 1; 2] Ex.w).
Defined.

Lemma inference_field_shape_witness :
  ∃ t, pred_fiberwidth (heap Ex2.w_inferred 2) = Some t
       ∧ shape t = [3; 1] ∧ wf t.
Proof.
  destruct (inference_field_shape Ex.pred [0; 1; 2] Ex.w Ex2.w_inferred 5 2)
    as (t & Ht & Hs & Hwf).
  - reflexivity.
  - reflexivity.
  - by do 2 right; left.
  - exists t. split; [exact Ht|]. split; [exact Hs|]. by apply Hwf.
Defined.

Lemma inference_chunks_partition_witness :
  concat ((λ i, pred_scalars (heap Ex2.w_inferred i)) <$> [0; 1; 2])
  = [1; 2; 3; 4; 5]%Z.
Proof.
  apply (inference_chunks_partition Ex.pred [0; 1; 2] Ex.w Ex2.w_inferred).
  - reflexivity.
  - by apply (bool_decide_unpack _).
  - reflexivity.
Defined.

Lemma inference_idempotent_witness :
  ∃ w'', run (fiberwidth_inference Ex.pred [0; 1; 2]) Ex2.w_inferred
         = (Ok (), w'')
    ∧ heap w'' 2 = heap Ex2.w_inferred 2.
Proof.
  destruct (inference_idempotent Ex.pred [0; 1; 2] Ex.w Ex2.w_inferred
              eq_refl) as (w'' & Hrun & Hheap & _).
  exists w''. split; [exact Hrun|apply Hheap].
Defined.

Lemma loss_unchanged_by_inference_witness :
  (run (fiberwidth_loss Ex.pred [0; 1; 2]) Ex2.w_inferred).1
  = Ok (mkTensor [] [891%Z]).
Proof.
  rewrite (loss_unchanged_by_inference Ex.pred [0; 1; 2] Ex.pred [0; 1; 2]
             Ex.w Ex2.w_inferred eq_refl).
  reflexivity.
Defined.
